(** * Vehicle Management API: a shallow embedding of [main.py]

    The development follows the layout of the service:
    - [SHA256]: the digest that [hashlib.sha256] computes (FIPS 180-4);
    - [generate_vin]: the identifier generator;
    - [VehicleCreate] and its validator, [validation_exception_handler];
    - the storage session ([get_db_connection]) and the six request handlers;
    - the properties of the service. *)

From Stdlib Require Import ZArith List String Ascii Bool Lia PrimFloat.
From Stdlib Require Import Init.Byte Numbers.DecimalString.
Import ListNotations.
Local Open Scope string_scope.
Local Open Scope list_scope.
Local Open Scope Z_scope.
#[local] Set Warnings "-register-all".

(* ===================================================================== *)
(** ** Bytes and Python's [str] / [bytes] conversions *)
(* ===================================================================== *)

(** A Python [str] is a [string]: one [ascii] per character (code points
    below 256).  A Python [bytes] object is a [list byte]. *)

Definition byte_to_Z (b : byte) : Z := Z.of_N (Byte.to_N b).

Definition byte_of_Z (z : Z) : byte :=
  byte_of_ascii (ascii_of_N (Z.to_N (z mod 256))).

(** [str(n)] for an [int]: the decimal digits, with a leading minus sign
    for negative numbers. *)
Definition str (n : Z) : string := NilZero.string_of_int (Z.to_int n).

(** [s.encode()]: UTF-8.  A code point below 128 is one byte, the others
    (below 256 here) are two. *)
Definition encode_char (c : ascii) : list byte :=
  let n := Z.of_N (N_of_ascii c) in
  if n <? 128 then [byte_of_Z n]
  else [byte_of_Z (Z.lor 192 (Z.shiftr n 6));
        byte_of_Z (Z.lor 128 (Z.land n 63))].

Fixpoint encode (s : string) : list byte :=
  match s with
  | EmptyString => []
  | String c s' => encode_char c ++ encode s'
  end.

(* ===================================================================== *)
(** ** SHA-256 *)
(* ===================================================================== *)

Module SHA256.

(** 32-bit words are [Z] with the wrap-around written out. *)
Definition wrap (x : Z) : Z := x mod 2 ^ 32.
Definition add (x y : Z) : Z := wrap (x + y).

Definition rotr (n x : Z) : Z :=
  Z.lor (Z.shiftr x n) (wrap (Z.shiftl x (32 - n))).

Definition ch (x y z : Z) : Z :=
  Z.lxor (Z.land x y) (Z.land (Z.lnot x) z).
Definition maj (x y z : Z) : Z :=
  Z.lxor (Z.lxor (Z.land x y) (Z.land x z)) (Z.land y z).
Definition bsig0 (x : Z) : Z :=
  Z.lxor (Z.lxor (rotr 2 x) (rotr 13 x)) (rotr 22 x).
Definition bsig1 (x : Z) : Z :=
  Z.lxor (Z.lxor (rotr 6 x) (rotr 11 x)) (rotr 25 x).
Definition ssig0 (x : Z) : Z :=
  Z.lxor (Z.lxor (rotr 7 x) (rotr 18 x)) (Z.shiftr x 3).
Definition ssig1 (x : Z) : Z :=
  Z.lxor (Z.lxor (rotr 17 x) (rotr 19 x)) (Z.shiftr x 10).

(** The constants of FIPS 180-4 are fractional parts of roots of the
    first primes, 32 bits of each. *)
Definition is_prime (n : nat) : bool :=
  forallb (fun d => negb (n mod d =? 0)%nat) (seq 2 (n - 2)).

Definition primes (count : nat) : list Z :=
  map Z.of_nat (firstn count (filter is_prime (seq 2 310))).

(** The integer part of the [k]-th root of [x], by bisection between
    [lo] and [hi]. *)
Fixpoint root_between (steps : nat) (k : Z) (x lo hi : Z) : Z :=
  match steps with
  | O => lo
  | S steps' =>
      let mid := (lo + hi) / 2 in
      if mid ^ k <=? x then root_between steps' k x mid hi
      else root_between steps' k x lo mid
  end.

Definition root_fraction (k : Z) (p : Z) : Z :=
  wrap (root_between 40 k (p * 2 ^ (32 * k)) 0 (2 ^ 40)).

(** The cube roots of the first 64 primes. *)
Definition round_constants : list Z :=
  Eval vm_compute in map (root_fraction 3) (primes 64).

(** The eight working words. *)
Record state := State {
  sa : Z; sb : Z; sc : Z; sd : Z; se : Z; sf : Z; sg : Z; sh : Z }.

(** The square roots of the first 8 primes. *)
Definition initial : state :=
  Eval vm_compute in
    match map (root_fraction 2) (primes 8) with
    | [a; b; c; d; e; f; g; h] => State a b c d e f g h
    | _ => State 0 0 0 0 0 0 0 0
    end.

(** Padding: a [0x80] byte, zero bytes up to 56 modulo 64, then the bit
    length of the message as a 64-bit big-endian number. *)
Definition be_bytes (width : nat) (x : Z) : list byte :=
  map (fun i => byte_of_Z (Z.shiftr x (8 * Z.of_nat (width - 1 - i))))
      (seq 0 width).

Definition pad (msg : list byte) : list byte :=
  let len := Z.of_nat (List.length msg) in
  let zeros := Z.to_nat ((55 - len) mod 64) in
  msg ++ byte_of_Z 128 :: repeat (byte_of_Z 0) zeros
      ++ be_bytes 8 ((8 * len) mod 2 ^ 64).

Fixpoint chunks (k : nat) (count : nat) {A} (l : list A) : list (list A) :=
  match count with
  | O => []
  | S count' => firstn k l :: chunks k count' (skipn k l)
  end.

Definition word_of_bytes (bs : list byte) : Z :=
  fold_left (fun acc b => acc * 256 + byte_to_Z b) bs 0.

Definition block_words (block : list byte) : list Z :=
  map word_of_bytes (chunks 4 16 block).

(** The message schedule: the 16 words of the block, then 48 words each
    computed from four earlier ones. *)
Fixpoint extend (count : nat) (w : list Z) : list Z :=
  match count with
  | O => w
  | S count' =>
      let t := List.length w in
      let at_ (back : nat) := nth (t - back) w 0 in
      extend count'
        (w ++ [add (add (ssig1 (at_ 2%nat)) (at_ 7%nat))
                   (add (ssig0 (at_ 15%nat)) (at_ 16%nat))])
  end.

Definition schedule (block : list byte) : list Z :=
  extend 48 (block_words block).

Definition round (s : state) (kw : Z * Z) : state :=
  let '(k, w) := kw in
  let t1 := add (add (add (sh s) (bsig1 (se s)))
                     (add (ch (se s) (sf s) (sg s)) k)) w in
  let t2 := add (bsig0 (sa s)) (maj (sa s) (sb s) (sc s)) in
  State (add t1 t2) (sa s) (sb s) (sc s) (add (sd s) t1) (se s) (sf s) (sg s).

Definition compress (h : state) (block : list byte) : state :=
  let s := fold_left round (combine round_constants (schedule block)) h in
  State (add (sa h) (sa s)) (add (sb h) (sb s)) (add (sc h) (sc s))
        (add (sd h) (sd s)) (add (se h) (se s)) (add (sf h) (sf s))
        (add (sg h) (sg s)) (add (sh h) (sh s)).

Definition output (s : state) : list byte :=
  be_bytes 4 (sa s) ++ be_bytes 4 (sb s) ++ be_bytes 4 (sc s)
    ++ be_bytes 4 (sd s) ++ be_bytes 4 (se s) ++ be_bytes 4 (sf s)
    ++ be_bytes 4 (sg s) ++ be_bytes 4 (sh s).

(** [hashlib.sha256(msg).digest()] *)
Definition digest (msg : list byte) : list byte :=
  let padded := pad msg in
  output (fold_left compress
            (chunks 64 (List.length padded / 64) padded) initial).

End SHA256.

(* ===================================================================== *)
(** ** The identifier generator *)
(* ===================================================================== *)

(** The alphabet of [generate_vin]: no I, O, Q. *)
Definition chars : string := "0123456789ABCDEFGHJKLMNPRSTUVWXYZ".

(** [''.join(...)] over characters each of which is the result of an
    indexing expression; [None] is the [IndexError] of a failed one. *)
Fixpoint join (parts : list (option ascii)) : option string :=
  match parts with
  | [] => Some EmptyString
  | Some c :: parts' =>
      match join parts' with
      | Some s => Some (String c s)
      | None => None
      end
  | None :: _ => None
  end.

(** [generate_vin(vehicle_id)]: [hash_bytes[i]] and [chars[...]] are
    Python indexing, which raises out of range ([None] here). *)
Definition generate_vin (vehicle_id : Z) : option string :=
  let hash_bytes := SHA256.digest (encode (str vehicle_id)) in
  join (map (fun i =>
               match nth_error hash_bytes i with
               | Some b =>
                   String.get
                     (Z.to_nat (byte_to_Z b mod Z.of_nat (String.length chars)))
                     chars
               | None => None
               end)
            (seq 0 17)).

Arguments generate_vin : simpl never.

(** The generator as the specification words it: every one of the first
    17 digest bytes is mapped to the symbol at position [byte mod modulus]
    of the alphabet of digits and uppercase letters without I, O and Q,
    and the symbols are concatenated in order. *)
Definition excluded (c : ascii) : bool :=
  (c =? "I")%char || (c =? "O")%char || (c =? "Q")%char.

Definition spec_alphabet : list ascii :=
  filter (fun c => negb (excluded c))
         (list_ascii_of_string "0123456789ABCDEFGHIJKLMNOPQRSTUVWXYZ").

Definition spec_symbol (modulus : Z) (b : byte) : option ascii :=
  nth_error spec_alphabet (Z.to_nat (byte_to_Z b mod modulus)).

Definition spec_generate (modulus : Z) (sequence_value : Z) : option string :=
  join (map (spec_symbol modulus)
            (firstn 17 (SHA256.digest (encode (str sequence_value))))).

(** Hexadecimal rendering of a byte string, as [bytes.hex()]. *)
Definition hex_digit (z : Z) : ascii :=
  match String.get (Z.to_nat z) "0123456789abcdef" with
  | Some c => c
  | None => "?"%char
  end.

Fixpoint hex (bs : list byte) : string :=
  match bs with
  | [] => EmptyString
  | b :: bs' =>
      String (hex_digit (byte_to_Z b / 16))
        (String (hex_digit (byte_to_Z b mod 16)) (hex bs'))
  end.

Fixpoint replicate (n : nat) (s : string) : string :=
  match n with
  | O => EmptyString
  | S n' => String.append s (replicate n' s)
  end.

(* ===================================================================== *)
(** ** Request payloads and the input schema *)
(* ===================================================================== *)

(** What [json.loads] yields: [None], [bool], [int], [float], [str],
    [list] and [dict].  A [dict] is kept as its items, keys distinct. *)
Inductive json : Type :=
| JNull
| JBool (b : bool)
| JInt (n : Z)
| JFloat (x : float)
| JStr (s : string)
| JList (items : list json)
| JDict (items : list (string * json)).

Fixpoint dict_get (key : string) (items : list (string * json)) : option json :=
  match items with
  | [] => None
  | (k, v) :: items' =>
      if (k =? key)%string then Some v else dict_get key items'
  end.

(** One entry of [exc.errors()]: the violation kind and the field path. *)
Inductive loc_item : Type :=
| Key (name : string)
| Index (position : Z).

Record error_item : Type := ErrorItem {
  type : string;
  loc : list loc_item }.

Module VehicleCreate.
Record t : Type := mk {
  manufacturer_name : string;
  description : option string;
  horse_power : Z;
  model_name : string;
  model_year : Z;
  purchase_price : float;
  fuel_type : string }.
End VehicleCreate.

Module VehicleResponse.
Record t : Type := mk {
  vin : string;
  manufacturer_name : string;
  description : option string;
  horse_power : Z;
  model_name : string;
  model_year : Z;
  purchase_price : float;
  fuel_type : string }.
End VehicleResponse.

(** The collaborators outside the repository.  The conversions between a
    Python [float] and the [numeric] column [purchase_price], and
    pydantic's lax coercions of a decoded value to [int] and to [float]
    ([None] when the value is refused). *)
Class Collaborators : Type := {
  numeric : Type;
  adapt_float : float -> numeric;
  float_of_numeric : numeric -> float;
  lax_int : json -> option Z;
  lax_float : json -> option float }.

(** The outcome of validating one field: the violations found and, when
    there is none, the value. *)
Definition validated (A : Type) : Type := (list error_item * option A)%type.

Definition field_error {A} (kind name : string) : validated A :=
  ([ErrorItem kind [Key "body"; Key name]], None).

Definition valid {A} (a : A) : validated A := ([], Some a).

(** Validation goes through every field and gathers all violations. *)
Definition ap {A B} (f : validated (A -> B)) (x : validated A) : validated B :=
  (fst f ++ fst x,
   match snd f, snd x with
   | Some g, Some a => Some (g a)
   | _, _ => None
   end).

Infix "<*>" := ap (at level 40, left associativity).

(** [str = Field(..., min_length=.., max_length=..)]: a required string;
    lengths count characters. *)
Definition str_field (name : string) (min_length max_length : option nat)
    (items : list (string * json)) : validated string :=
  match dict_get name items with
  | None => field_error "missing" name
  | Some (JStr s) =>
      let too_short := match min_length with
                       | Some n => (String.length s <? n)%nat
                       | None => false
                       end in
      let too_long := match max_length with
                      | Some n => (n <? String.length s)%nat
                      | None => false
                      end in
      if too_short then field_error "string_too_short" name
      else if too_long then field_error "string_too_long" name
      else valid s
  | Some _ => field_error "string_type" name
  end.

(** [Optional[str] = None] *)
Definition optional_str_field (name : string)
    (items : list (string * json)) : validated (option string) :=
  match dict_get name items with
  | None => valid None
  | Some JNull => valid None
  | Some (JStr s) => valid (Some s)
  | Some _ => field_error "string_type" name
  end.

Section InputSchema.
Context `{Collaborators}.

(** [int]: required, coerced in lax mode. *)
Definition int_field (name : string)
    (items : list (string * json)) : validated Z :=
  match dict_get name items with
  | None => field_error "missing" name
  | Some v =>
      match lax_int v with
      | Some n => valid n
      | None =>
          match v with
          | JStr _ => field_error "int_parsing" name
          | JFloat _ => field_error "int_from_float" name
          | _ => field_error "int_type" name
          end
      end
  end.

(** [float]: required, coerced in lax mode. *)
Definition float_field (name : string)
    (items : list (string * json)) : validated float :=
  match dict_get name items with
  | None => field_error "missing" name
  | Some v =>
      match lax_float v with
      | Some x => valid x
      | None =>
          match v with
          | JStr _ => field_error "float_parsing" name
          | _ => field_error "float_type" name
          end
      end
  end.

(** The fields of [class VehicleCreate(BaseModel)], in declaration order. *)
Definition validate_fields (items : list (string * json))
  : validated VehicleCreate.t :=
  valid VehicleCreate.mk
    <*> str_field "manufacturer_name" (Some 1%nat) (Some 255%nat) items
    <*> optional_str_field "description" items
    <*> int_field "horse_power" items
    <*> str_field "model_name" (Some 1%nat) (Some 255%nat) items
    <*> int_field "model_year" items
    <*> float_field "purchase_price" items
    <*> str_field "fuel_type" None (Some 50%nat) items.

(** Validation of a decoded body against [VehicleCreate]: the model or
    the list of all violations. *)
Definition validate (body : json) : list error_item + VehicleCreate.t :=
  match body with
  | JDict items =>
      match validate_fields items with
      | ([], Some vehicle) => inr vehicle
      | (errors, _) => inl errors
      end
  | _ => inl [ErrorItem "model_attributes_type" [Key "body"]]
  end.

End InputSchema.

(* ===================================================================== *)
(** ** Responses and the handler of validation errors *)
(* ===================================================================== *)

(** The JSON content of a response. *)
Inductive content : Type :=
| Detail (detail : string)
| DetailErrors (detail : string) (errors : list error_item)
| Vehicle (vehicle : VehicleResponse.t)
| Vehicles (vehicles : list VehicleResponse.t)
| Health (message status database : string)
| Empty.

Record response : Type := Response {
  status_code : Z;
  body : content }.

Definition json_error_types : list string := ["json_invalid"; "json_type"].

(** The loop of [validation_exception_handler]: is there an error whose
    type is one of the JSON parsing types? *)
Fixpoint has_json_error (errors : list error_item) : bool :=
  match errors with
  | [] => false
  | error :: errors' =>
      if existsb (String.eqb (type error)) json_error_types then true
      else has_json_error errors'
  end.

(** [validation_exception_handler(request, exc)] on [exc.errors()]. *)
Definition validation_exception_handler (errors : list error_item) : response :=
  if has_json_error errors then
    Response 400
      (DetailErrors "Invalid JSON format - cannot parse request body" errors)
  else
    Response 422
      (DetailErrors "Validation error - invalid or missing fields" errors).

(** The body of a request as the framework's decoding step leaves it:
    not decodable as JSON (at some position), or decoded. *)
Inductive request_body : Type :=
| Malformed (position : Z)
| Decoded (value : json).

Inductive request : Type :=
| GET_root
| GET_vehicle
| POST_vehicle (payload : request_body)
| GET_vehicle_vin (vin : string)
| PUT_vehicle_vin (vin : string) (payload : request_body)
| DELETE_vehicle_vin (vin : string).

(* ===================================================================== *)
(** ** Exceptions, storage and the scoped connection *)
(* ===================================================================== *)

(** The exceptions of the service, all of them subclasses of Python's
    [Exception]: an error of the database driver with its message, the
    framework's [HTTPException], and the errors of indexing. *)
Inductive exn : Type :=
| DatabaseError (msg : string)
| HTTPException (status_code : Z) (detail : string)
| TypeError
| IndexError.

(** [str(e)] *)
Definition str_exn (e : exn) : string :=
  match e with
  | DatabaseError msg => msg
  | HTTPException status_code detail =>
      String.append (str status_code) (String.append ": " detail)
  | TypeError => "'NoneType' object is not subscriptable"
  | IndexError => "index out of range"
  end.

Inductive result (A : Type) : Type :=
| Ok (a : A)
| Raise (e : exn).
Arguments Ok {A} a.
Arguments Raise {A} e.

(** What the environment does to the calls of one request: every call on
    the driver ([connect], [execute], [commit], [rollback]) takes the next
    entry, [Some msg] makes the call raise with that message; past the
    end of the plan every call goes through. *)
Definition fault_plan : Type := list (option string).

Definition next_fault (plan : fault_plan) : option string * fault_plan :=
  match plan with
  | [] => (None, [])
  | fault :: plan' => (fault, plan')
  end.

(** The calls on a connection that the context manager makes. *)
Inductive conn_call : Type := Connect | Commit | Rollback | Close.

(** A call and whether it went through. *)
Definition event : Type := (conn_call * bool)%type.

(** [LOWER(vin)] and the two casings of Python, on ASCII letters. *)
Definition lower_char (c : ascii) : ascii :=
  let n := nat_of_ascii c in
  if ((65 <=? n) && (n <=? 90))%nat then ascii_of_nat (n + 32) else c.

Definition upper_char (c : ascii) : ascii :=
  let n := nat_of_ascii c in
  if ((97 <=? n) && (n <=? 122))%nat then ascii_of_nat (n - 32) else c.

Fixpoint map_string (f : ascii -> ascii) (s : string) : string :=
  match s with
  | EmptyString => EmptyString
  | String c s' => String (f c) (map_string f s')
  end.

Definition lower (s : string) : string := map_string lower_char s.
Definition upper (s : string) : string := map_string upper_char s.

Section Storage.
Context `{Collaborators}.

(** A row of the table [vehicles], columns in the order of the table. *)
Record row : Type := Row {
  row_vin : string;
  row_manufacturer_name : string;
  row_description : option string;
  row_horse_power : Z;
  row_model_name : string;
  row_model_year : Z;
  row_purchase_price : numeric;
  row_fuel_type : string }.

(** The committed state of the store: the sequence [vehicle_id_seq] (its
    last value) and the table. *)
Record database : Type := Database {
  vehicle_id_seq : Z;
  vehicles : list row }.

(** An open connection: what its transaction sees.  The sequence is
    shared with the store and is not transactional. *)
Record connection : Type := Connection {
  conn_plan : fault_plan;
  conn_seq : Z;
  conn_rows : list row }.

(** Code that runs on an open connection. *)
Definition Tx (A : Type) : Type := connection -> result A * connection.

Definition tx_ret {A} (a : A) : Tx A := fun c => (Ok a, c).
Definition tx_raise {A} (e : exn) : Tx A := fun c => (Raise e, c).
Definition tx_bind {A B} (m : Tx A) (k : A -> Tx B) : Tx B :=
  fun c =>
    match m c with
    | (Ok a, c') => k a c'
    | (Raise e, c') => (Raise e, c')
    end.

(** [cursor.execute(...)]: raises when the environment says so, and has
    its effect on the transaction otherwise; the value is the result set. *)
Definition execute {A} (effect : connection -> result (list A) * connection)
  : Tx (list A) :=
  fun c =>
    match next_fault (conn_plan c) with
    | (Some msg, plan) =>
        (Raise (DatabaseError msg), Connection plan (conn_seq c) (conn_rows c))
    | (None, plan) => effect (Connection plan (conn_seq c) (conn_rows c))
    end.

(** [cursor.fetchone()] *)
Definition fetchone {A} (result_set : list A) : option A :=
  match result_set with
  | [] => None
  | first :: _ => Some first
  end.

(** [x[...]] on the result of [fetchone()]: a [TypeError] on [None]. *)
Definition subscript {A} (x : option A) : Tx A :=
  match x with
  | Some a => tx_ret a
  | None => tx_raise TypeError
  end.

Definition matches (vin : string) (r : row) : bool :=
  (lower (row_vin r) =? lower vin)%string.

(** [SELECT version();] *)
Definition select_version : Tx (list string) :=
  execute (fun c => (Ok ["PostgreSQL"], c)).

(** [SELECT * FROM vehicles;] *)
Definition select_all : Tx (list row) :=
  execute (fun c => (Ok (conn_rows c), c)).

(** [SELECT nextval('vehicle_id_seq')] *)
Definition select_nextval : Tx (list Z) :=
  execute (fun c =>
    (Ok [conn_seq c + 1],
     Connection (conn_plan c) (conn_seq c + 1) (conn_rows c))).

(** Modelled from the spec: the schema of the table is not part of the
    sources; identifiers are unique, enforced by the storage layer, and an
    insert of an identifier that is already stored fails with a uniqueness
    violation.  [INSERT INTO vehicles (...) VALUES (...) RETURNING ...] *)
Definition insert (r : row) : Tx (list row) :=
  execute (fun c =>
    if existsb (fun r' => (row_vin r' =? row_vin r)%string) (conn_rows c)
    then (Raise (DatabaseError
                   "duplicate key value violates unique constraint"), c)
    else (Ok [r], Connection (conn_plan c) (conn_seq c) (conn_rows c ++ [r]))).

(** [SELECT * FROM vehicles WHERE LOWER(vin) = LOWER(%s);] *)
Definition select_by_vin (vin : string) : Tx (list row) :=
  execute (fun c => (Ok (filter (matches vin) (conn_rows c)), c)).

Definition set_columns (vehicle : VehicleCreate.t) (r : row) : row :=
  Row (row_vin r)
      (VehicleCreate.manufacturer_name vehicle)
      (VehicleCreate.description vehicle)
      (VehicleCreate.horse_power vehicle)
      (VehicleCreate.model_name vehicle)
      (VehicleCreate.model_year vehicle)
      (adapt_float (VehicleCreate.purchase_price vehicle))
      (VehicleCreate.fuel_type vehicle).

(** [UPDATE vehicles SET ... WHERE LOWER(vin) = LOWER(%s) RETURNING ...] *)
Definition update_by_vin (vehicle : VehicleCreate.t) (vin : string)
  : Tx (list row) :=
  execute (fun c =>
    (Ok (map (set_columns vehicle) (filter (matches vin) (conn_rows c))),
     Connection (conn_plan c) (conn_seq c)
       (map (fun r => if matches vin r then set_columns vehicle r else r)
            (conn_rows c)))).

(** [DELETE FROM vehicles WHERE LOWER(vin) = LOWER(%s) RETURNING vin;] *)
Definition delete_by_vin (vin : string) : Tx (list string) :=
  execute (fun c =>
    (Ok (map row_vin (filter (matches vin) (conn_rows c))),
     Connection (conn_plan c) (conn_seq c)
       (filter (fun r => negb (matches vin r)) (conn_rows c)))).


Notation "x <- m ;; k" := (tx_bind m (fun x => k))
  (at level 61, m at next level, right associativity).

(** The service as the environment sees it: the plan of faults left for
    the request, the committed store, and the calls made on connections. *)
Record world : Type := World {
  plan : fault_plan;
  store : database;
  log : list event }.

(** Code of a request handler. *)
Definition IO (A : Type) : Type := world -> result A * world.

Definition io_ret {A} (a : A) : IO A := fun w => (Ok a, w).
Definition io_raise {A} (e : exn) : IO A := fun w => (Raise e, w).
Definition io_bind {A B} (m : IO A) (k : A -> IO B) : IO B :=
  fun w =>
    match m w with
    | (Ok a, w') => k a w'
    | (Raise e, w') => (Raise e, w')
    end.

(** [try: body  except Exception as e: handler] *)
Definition try_except {A} (body : IO A) (handler : exn -> IO A) : IO A :=
  fun w =>
    match body w with
    | (Ok a, w') => (Ok a, w')
    | (Raise e, w') => handler e w'
    end.

(** A call on the driver that the environment may fail. *)
Definition driver_call (what : conn_call) : IO unit :=
  fun w =>
    match next_fault (plan w) with
    | (Some msg, rest) =>
        (Raise (DatabaseError msg),
         World rest (store w) (log w ++ [(what, false)]))
    | (None, rest) =>
        (Ok tt, World rest (store w) (log w ++ [(what, true)]))
    end.

(** [except Exception as e: if conn: conn.rollback(); raise e], with a
    connection at hand. *)
Definition rollback_and_reraise {A} (e : exn) : IO A :=
  io_bind (driver_call Rollback) (fun _ => io_raise e).

(** [get_db_connection()] around the body of a [with] block. *)
Definition get_db_connection {A} (body : Tx A) : IO A :=
  fun w =>
    (* conn = None;  try: conn = psycopg2.connect(DATABASE_URL) *)
    match driver_call Connect w with
    | (Raise e, w1) =>
        (* except: conn is None, raise e;  finally: conn is None *)
        (Raise e, w1)
    | (Ok _, w1) =>
        (* yield conn *)
        let '(r, conn) :=
          body (Connection (plan w1) (vehicle_id_seq (store w1))
                           (vehicles (store w1))) in
        let w2 := World (conn_plan conn)
                        (Database (conn_seq conn) (vehicles (store w1)))
                        (log w1) in
        let '(r', w3) :=
          match r with
          | Ok a =>
              (* conn.commit() *)
              match driver_call Commit w2 with
              | (Ok _, w3) =>
                  (Ok a,
                   World (plan w3)
                         (Database (conn_seq conn) (conn_rows conn))
                         (log w3))
              | (Raise e, w3) => rollback_and_reraise e w3
              end
          | Raise e => rollback_and_reraise e w2
          end in
        (* finally: conn.close() *)
        (r', World (plan w3) (store w3) (log w3 ++ [(Close, true)]))
    end.

(* ===================================================================== *)
(** ** The request handlers *)
(* ===================================================================== *)

(** The positional reading of a row into [VehicleResponse]. *)
Definition row_response (v : row) : VehicleResponse.t :=
  VehicleResponse.mk
    (row_vin v)
    (row_manufacturer_name v)
    (row_description v)
    (row_horse_power v)
    (row_model_name v)
    (row_model_year v)
    (float_of_numeric (row_purchase_price v))
    (row_fuel_type v).

Definition healthy : (string * string * string)%type :=
  ("Vehicle Management API is running", "healthy", "connected").

(** The body of the [with] block of [root]. *)
Definition database_probe : Tx unit :=
  rows <- select_version ;;
  db_version <- subscript (fetchone rows) ;;
  tx_ret tt.

(** [GET /] *)
Definition root : IO (string * string * string) :=
  try_except
    (io_bind
       (get_db_connection database_probe)
       (fun _ => io_ret healthy))
    (fun e =>
       io_raise (HTTPException 503
         (String.append "Database connection failed: " (str_exn e)))).

(** [GET /vehicle] *)
Definition get_vehicle : IO (list VehicleResponse.t) :=
  try_except
    (get_db_connection
       (vehicles <- select_all ;;
        tx_ret (map row_response vehicles)))
    (fun e =>
       io_raise
         (HTTPException 500 "Failed to retrieve vehicles from database")).

(** The identifier generator called from a handler: a failed indexing is
    an [IndexError]. *)
Definition call_generate_vin (vehicle_id : Z) : Tx string :=
  match generate_vin vehicle_id with
  | Some vin => tx_ret vin
  | None => tx_raise IndexError
  end.

(** The body of the [with] block of [create_vehicle]. *)
Definition create_vehicle_block (vehicle : VehicleCreate.t)
  : Tx VehicleResponse.t :=
  rows <- select_nextval ;;
  vehicle_id <- subscript (fetchone rows) ;;
  vin <- call_generate_vin vehicle_id ;;
  rows <- insert (Row vin
                    (VehicleCreate.manufacturer_name vehicle)
                    (VehicleCreate.description vehicle)
                    (VehicleCreate.horse_power vehicle)
                    (VehicleCreate.model_name vehicle)
                    (VehicleCreate.model_year vehicle)
                    (adapt_float (VehicleCreate.purchase_price vehicle))
                    (VehicleCreate.fuel_type vehicle)) ;;
  new_vehicle <- subscript (fetchone rows) ;;
  tx_ret (row_response new_vehicle).

(** [POST /vehicle] *)
Definition create_vehicle (vehicle : VehicleCreate.t) : IO VehicleResponse.t :=
  try_except
    (get_db_connection (create_vehicle_block vehicle))
    (fun e => io_raise (HTTPException 500 "Failed to create new vehicle")).

(** [GET /vehicle/{vin}] *)
Definition get_vehicle_by_vin (vin : string) : IO VehicleResponse.t :=
  try_except
    (get_db_connection
       (rows <- select_by_vin vin ;;
        match fetchone rows with
        | None => tx_raise (HTTPException 404 "Vehicle not found")
        | Some vehicle => tx_ret (row_response vehicle)
        end))
    (fun e => io_raise (HTTPException 500 "Failed to retrieve vehicle")).

(** [PUT /vehicle/{vin}] *)
Definition update_vehicle (vin : string) (vehicle : VehicleCreate.t)
  : IO VehicleResponse.t :=
  try_except
    (get_db_connection
       (rows <- update_by_vin vehicle vin ;;
        match fetchone rows with
        | None => tx_raise (HTTPException 404 "Vehicle not found")
        | Some updated_vehicle => tx_ret (row_response updated_vehicle)
        end))
    (fun e => io_raise (HTTPException 500 "Failed to update vehicle")).

(** [DELETE /vehicle/{vin}] *)
Definition delete_vehicle (vin : string) : IO unit :=
  try_except
    (get_db_connection
       (rows <- delete_by_vin vin ;;
        match fetchone rows with
        | None => tx_raise (HTTPException 404 "Vehicle not found")
        | Some deleted_vehicle => tx_ret tt
        end))
    (fun e => io_raise (HTTPException 500 "Failed to delete vehicle")).

(* ===================================================================== *)
(** ** The application *)
(* ===================================================================== *)

(** The errors of [RequestValidationError] for a body: the framework
    reports a body that does not decode as one error of type
    [json_invalid], and a decoded one goes through the model. *)
Definition request_validation (payload : request_body)
  : list error_item + VehicleCreate.t :=
  match payload with
  | Malformed position =>
      inl [ErrorItem "json_invalid" [Key "body"; Index position]]
  | Decoded value => validate value
  end.

(** What the framework sends for the outcome of a handler: the content
    with the status of the route, or the status and detail of an
    [HTTPException]. *)
Definition respond {A} (success : Z) (render : A -> content)
    (outcome : result A * world) : response * world :=
  match outcome with
  | (Ok a, w) => (Response success (render a), w)
  | (Raise (HTTPException status detail), w) =>
      (Response status (Detail detail), w)
  | (Raise _, w) => (Response 500 (Detail "Internal Server Error"), w)
  end.

Definition app (req : request) (w : world) : response * world :=
  match req with
  | GET_root =>
      respond 200 (fun '(message, status, database) =>
                     Health message status database) (root w)
  | GET_vehicle => respond 200 Vehicles (get_vehicle w)
  | POST_vehicle payload =>
      match request_validation payload with
      | inl errors => (validation_exception_handler errors, w)
      | inr vehicle => respond 201 Vehicle (create_vehicle vehicle w)
      end
  | GET_vehicle_vin vin => respond 200 Vehicle (get_vehicle_by_vin vin w)
  | PUT_vehicle_vin vin payload =>
      match request_validation payload with
      | inl errors => (validation_exception_handler errors, w)
      | inr vehicle => respond 200 Vehicle (update_vehicle vin vehicle w)
      end
  | DELETE_vehicle_vin vin =>
      respond 204 (fun _ => Empty) (delete_vehicle vin w)
  end.

(** One request against a store, under a plan of faults: the response and
    the store afterwards. *)
Definition handle (faults : fault_plan) (d : database) (req : request)
  : response * database :=
  let '(resp, w) := app req (World faults d []) in (resp, store w).

(** The stores the service can be in: a fresh table, the sequence
    anywhere, and whatever requests make of it. *)
Inductive reachable : database -> Prop :=
| reachable_fresh : forall n, reachable (Database n [])
| reachable_step : forall d faults req,
    reachable d -> reachable (snd (handle faults d req)).

End Storage.

(** The collaborators at their simplest: a [numeric] column that gives
    back the float it was given, and coercions that take a value of the
    very type of the field. *)
Definition plain : Collaborators := {|
  numeric := float;
  adapt_float := fun x => x;
  float_of_numeric := fun x => x;
  lax_int := fun v => match v with JInt n => Some n | _ => None end;
  lax_float := fun v => match v with JFloat x => Some x | _ => None end |}.

(** The payload of the tests. *)
Definition honda_items : list (string * json) :=
  [ ("manufacturer_name", JStr "Honda");
    ("description", JStr "Blue sedan");
    ("horse_power", JInt 192);
    ("model_name", JStr "Accord");
    ("model_year", JInt 2021);
    ("purchase_price", JFloat 25000%float);
    ("fuel_type", JStr "Gasoline") ].

Definition honda : VehicleCreate.t :=
  VehicleCreate.mk "Honda" (Some "Blue sedan") 192 "Accord" 2021
                   25000%float "Gasoline".

Definition empty_store : @database plain := Database 0 [].

(** The first record of a fresh store: sequence value 1. *)
Definition honda_row : @row plain :=
  @Row plain "82DGRKMUS8WCRRXM5" "Honda" (Some "Blue sedan") 192 "Accord"
       2021 25000%float "Gasoline".

Definition honda_store : @database plain := Database 1 [honda_row].

Definition honda_response : VehicleResponse.t :=
  VehicleResponse.mk "82DGRKMUS8WCRRXM5" "Honda" (Some "Blue sedan") 192
                     "Accord" 2021 25000%float "Gasoline".

(** The payload of the tests with an empty [fuel_type]. *)
Definition no_fuel_items : list (string * json) :=
  [ ("manufacturer_name", JStr "Honda");
    ("horse_power", JInt 192);
    ("model_name", JStr "Accord");
    ("model_year", JInt 2021);
    ("purchase_price", JFloat 25000%float);
    ("fuel_type", JStr "") ].


(** All the violations of a decoded body, field by field in the order of
    the model; a body that is not an object has the one violation of the
    model itself. *)
Definition violations `{Collaborators} (value : json) : list error_item :=
  match value with
  | JDict items =>
      fst (str_field "manufacturer_name" (Some 1%nat) (Some 255%nat) items)
      ++ fst (optional_str_field "description" items)
      ++ fst (int_field "horse_power" items)
      ++ fst (str_field "model_name" (Some 1%nat) (Some 255%nat) items)
      ++ fst (int_field "model_year" items)
      ++ fst (float_field "purchase_price" items)
      ++ fst (str_field "fuel_type" None (Some 50%nat) items)
  | _ => [ErrorItem "model_attributes_type" [Key "body"]]
  end.

(** The outcome of a field is either a value and no violation, or
    violations, none of a JSON parsing type, and no value. *)
Definition clean {A} (v : validated A) : Prop :=
  (fst v = [] /\ snd v <> None)
  \/ (fst v <> [] /\ snd v = None /\ has_json_error (fst v) = false).

(** The connection that [get_db_connection] hands to the body: the plan
    after the call of [connect], and the committed store. *)
Definition opened `{Collaborators} (w : world) : connection :=
  Connection (snd (next_fault (plan w)))
             (vehicle_id_seq (store w)) (vehicles (store w)).

(** The calls that a request can make on connections: none (the body was
    refused before any handler ran), a failed [connect], or a connection
    that is committed or rolled back and then closed. *)
Definition scoped (events : list event) : Prop :=
  events = []
  \/ events = [(Connect, false)]
  \/ events = [(Connect, true); (Commit, true); (Close, true)]
  \/ (exists done, events = [(Connect, true); (Rollback, done); (Close, true)])
  \/ (exists done, events = [(Connect, true); (Commit, false);
                             (Rollback, done); (Close, true)]).

(** The stored identifiers are pairwise distinct and in the casing the
    generator gives them. *)
Definition store_ok `{Collaborators} (rows : list row) : Prop :=
  NoDup (map row_vin rows)
  /\ Forall (fun r => upper (row_vin r) = row_vin r) rows.

(** A body keeps the invariant of the table, and its values satisfy [Q]. *)
Definition tx_spec `{Collaborators} {A} (body : Tx A) (Q : A -> Prop) : Prop :=
  forall c,
    store_ok (conn_rows c) ->
    store_ok (conn_rows (snd (body c)))
    /\ forall a, fst (body c) = Ok a -> Q a.

(** The fixed message of the 500 response of each route. *)
Definition generic_message (req : request) : string :=
  match req with
  | GET_root => ""
  | GET_vehicle => "Failed to retrieve vehicles from database"
  | POST_vehicle _ => "Failed to create new vehicle"
  | GET_vehicle_vin _ => "Failed to retrieve vehicle"
  | PUT_vehicle_vin _ _ => "Failed to update vehicle"
  | DELETE_vehicle_vin _ => "Failed to delete vehicle"
  end.

(** A symbol that is none of I, O, Q and is its own uppercase form. *)
Definition good_symbol (c : ascii) : bool :=
  negb (excluded c) && (upper_char c =? c)%char.


(** The payload of the tests without [manufacturer_name]. *)
Definition no_manufacturer_items : list (string * json) :=
  [ ("description", JStr "Blue sedan");
    ("horse_power", JInt 192);
    ("model_name", JStr "Accord");
    ("model_year", JInt 2021);
    ("purchase_price", JFloat 25000%float);
    ("fuel_type", JStr "Gasoline") ].

(** The body of the create and update requests of the tests. *)
Definition honda_body : request_body := Decoded (JDict honda_items).

(** The row that [create_vehicle] inserts for an identifier and a model. *)
Definition created_row `{Collaborators} (vin : string)
    (vehicle : VehicleCreate.t) : row :=
  Row vin
      (VehicleCreate.manufacturer_name vehicle)
      (VehicleCreate.description vehicle)
      (VehicleCreate.horse_power vehicle)
      (VehicleCreate.model_name vehicle)
      (VehicleCreate.model_year vehicle)
      (adapt_float (VehicleCreate.purchase_price vehicle))
      (VehicleCreate.fuel_type vehicle).

(** The statuses that the code of each route can answer with. *)
Definition route_statuses (req : request) : list Z :=
  match req with
  | GET_root => [200; 503]
  | GET_vehicle => [200; 500]
  | POST_vehicle _ => [201; 400; 422; 500]
  | GET_vehicle_vin _ => [200; 500]
  | PUT_vehicle_vin _ _ => [200; 400; 422; 500]
  | DELETE_vehicle_vin _ => [204; 500]
  end.

(** The fields of [VehicleCreate] that have no default. *)
Definition required_fields : list string :=
  ["manufacturer_name"; "horse_power"; "model_name"; "model_year";
   "purchase_price"; "fuel_type"].

(** Do the first [count] calls on the driver go through? *)
Definition go_through (count : nat) (faults : fault_plan) : bool :=
  forallb (fun fault => match fault with
                        | None => true
                        | Some _ => false
                        end)
          (firstn count faults).


(* ===================================================================== *)
(** * Properties *)
(* ===================================================================== *)

(** ** The digest *)

Example round_constants_ends :
  List.length SHA256.round_constants = 64%nat
  /\ hd 0 SHA256.round_constants = 0x428a2f98
  /\ last SHA256.round_constants 0 = 0xc67178f2
  /\ SHA256.sa SHA256.initial = 0x6a09e667
  /\ SHA256.sh SHA256.initial = 0x5be0cd19.
Proof. vm_compute. repeat split. Qed.

Example sha256_abc :
  hex (SHA256.digest (encode "abc"))
  = "ba7816bf8f01cfea414140de5dae2223b00361a396177a9cb410ff61f20015ad".
Proof. vm_compute. reflexivity. Qed.

Example sha256_of_str_1 :
  hex (SHA256.digest (encode (str 1)))
  = "6b86b273ff34fce19d6b804eff5a3f5747ada4eaa22f1d49c01e52ddb7875b4b".
Proof. vm_compute. reflexivity. Qed.

Example sha256_of_str_minus_5 :
  hex (SHA256.digest (encode (str (-5))))
  = "37aa1ccf80e481832b2db282d4d4f895ee1e31219b7d0f6aee8dc8968828341b".
Proof. vm_compute. reflexivity. Qed.

(** A message of 100 bytes takes two blocks. *)
Example sha256_two_blocks :
  hex (SHA256.digest (encode (replicate 100 "a")))
  = "2816597888e4a0d3a36b82b83316ab32680eb8f00f8cd3b904d681246d285a0e".
Proof. vm_compute. reflexivity. Qed.

Lemma be_bytes_length (width : nat) (x : Z) :
  List.length (SHA256.be_bytes width x) = width.
Proof. unfold SHA256.be_bytes. now rewrite length_map, length_seq. Qed.

(** The digest has 32 bytes, whatever the message. *)
Lemma digest_length (msg : list byte) :
  List.length (SHA256.digest msg) = 32%nat.
Proof.
  unfold SHA256.digest, SHA256.output.
  repeat rewrite length_app. repeat rewrite be_bytes_length. reflexivity.
Qed.

(** ** The identifier generator *)

(** Reading positions [0 .. k-1] of a list one by one is taking its
    first [k] elements, when it has that many. *)
Lemma index_loop_firstn {A B} (g : A -> option B) (k : nat) :
  forall (l : list A) (start : nat),
    (start + k <= List.length l)%nat ->
    map (fun i => match nth_error l i with
                  | Some a => g a
                  | None => None
                  end) (seq start k)
    = map g (firstn k (skipn start l)).
Proof.
  induction k as [|k IH]; intros l start Hlen; [reflexivity|].
  cbn [seq map].
  destruct (nth_error l start) as [a|] eqn:Hnth.
  - rewrite IH by lia.
    assert (Hsplit : skipn start l = a :: skipn (S start) l).
    { clear -Hnth. revert l Hnth.
      induction start as [|start IHs]; intros [|x l] Hnth; cbn in *;
        try discriminate; [congruence | auto]. }
    rewrite Hsplit. reflexivity.
  - apply nth_error_None in Hnth. lia.
Qed.

(** On every byte the code and the table of symbols agree: the code
    indexes [chars] at [byte mod len(chars)], which is [byte mod 33]. *)
Lemma symbol_of_byte (b : byte) :
  String.get (Z.to_nat (byte_to_Z b mod Z.of_nat (String.length chars))) chars
  = spec_symbol 33 b.
Proof. destruct b; reflexivity. Qed.

(** Every byte has its symbol; it is none of I, O, Q and it is its own
    uppercase form. *)
Lemma symbol_total (b : byte) :
  exists c, spec_symbol 33 b = Some c
            /\ excluded c = false /\ upper_char c = c.
Proof. destruct b; eexists; (split; [reflexivity | split; reflexivity]). Qed.

Lemma join_total {A} (g : A -> option ascii) (P : ascii -> bool) :
  (forall a, exists c, g a = Some c /\ P c = true) ->
  forall l, exists s,
    join (map g l) = Some s
    /\ String.length s = List.length l
    /\ forallb P (list_ascii_of_string s) = true.
Proof.
  intros Hg l. induction l as [|a l IH].
  - exists EmptyString. repeat split.
  - destruct (Hg a) as [c [Hc HP]]. destruct IH as [s [Hs [Hlen Hall]]].
    exists (String c s). cbn. rewrite Hc, Hs. cbn. rewrite HP, Hall, Hlen.
    repeat split.
Qed.

Lemma generate_vin_unfold (n : Z) : generate_vin n = spec_generate 33 n.
Proof.
  unfold generate_vin, spec_generate.
  rewrite (index_loop_firstn
             (fun b => String.get
                (Z.to_nat (byte_to_Z b mod Z.of_nat (String.length chars)))
                chars)).
  - cbn [skipn]. f_equal. apply map_ext. intro b. apply symbol_of_byte.
  - rewrite digest_length. lia.
Qed.

Lemma generate_vin_total (n : Z) :
  exists vin,
    generate_vin n = Some vin
    /\ String.length vin = 17%nat
    /\ forallb good_symbol (list_ascii_of_string vin) = true.
Proof.
  rewrite generate_vin_unfold. unfold spec_generate.
  destruct (join_total (spec_symbol 33) good_symbol) with
    (l := firstn 17 (SHA256.digest (encode (str n)))) as [s [Hs [Hlen Hall]]].
  - intro b. destruct (symbol_total b) as [c [Hc [Hex Hup]]].
    exists c. split; [exact Hc|]. unfold good_symbol.
    rewrite Hex, Hup, Ascii.eqb_refl. reflexivity.
  - exists s. split; [exact Hs|]. split; [|exact Hall].
    rewrite Hlen, length_firstn, digest_length. reflexivity.
Qed.



(** C2, as the code has it.  For every integer [n], the generator
    computes the SHA-256 digest of the decimal string of [n] and maps
    each of the first 17 digest bytes to the symbol at [byte mod 33] of
    the alphabet of digits and uppercase letters without I, O and Q,
    which has 33 symbols, concatenating the symbols in order. *)
Theorem generate_vin_maps_digest_mod_33 (n : Z) :
  generate_vin n = spec_generate 33 n
  /\ list_ascii_of_string chars = spec_alphabet
  /\ List.length spec_alphabet = 33%nat
  /\ List.length (SHA256.digest (encode (str n))) = 32%nat.
Proof.
  split; [apply generate_vin_unfold|].
  split; [reflexivity|]. split; [reflexivity|]. apply digest_length.
Qed.

(** C2, as the specification words it, fails at [n = 1]: the first digest
    byte is 0x6b = 107, the code takes symbol 107 mod 33 = 8 where the
    specification takes symbol 107 mod 34 = 5; and the alphabet has 33
    symbols, not 34. *)
Lemma generate_vin_is_not_mod_34 :
  generate_vin 1 = Some "82DGRKMUS8WCRRXM5"
  /\ spec_generate 34 1 = Some "5Z8DHJEMM5TAHNWK3"
  /\ generate_vin 1 <> spec_generate 34 1
  /\ nth_error (SHA256.digest (encode (str 1))) 0 = Some (byte_of_Z 107)
  /\ String.length chars = 33%nat.
Proof.
  assert (Hcode : generate_vin 1 = Some "82DGRKMUS8WCRRXM5")
    by (vm_compute; reflexivity).
  assert (Hspec : spec_generate 34 1 = Some "5Z8DHJEMM5TAHNWK3")
    by (vm_compute; reflexivity).
  split; [exact Hcode|]. split; [exact Hspec|].
  split; [rewrite Hcode, Hspec; discriminate|].
  split; vm_compute; reflexivity.
Qed.

(** ** The input schema *)

Section InputSchemaProperties.
Context `{Collaborators}.

Lemma has_json_error_app (l1 l2 : list error_item) :
  has_json_error (l1 ++ l2) = has_json_error l1 || has_json_error l2.
Proof.
  induction l1 as [|e l1 IH]; [reflexivity|].
  simpl. rewrite IH.
  now destruct ((type e =? "json_invalid")%string
                || ((type e =? "json_type")%string || false)).
Qed.

Lemma clean_valid {A} (a : A) : clean (valid a).
Proof. left. split; [reflexivity | discriminate]. Qed.

Lemma clean_ap {A B} (f : validated (A -> B)) (x : validated A) :
  clean f -> clean x -> clean (f <*> x).
Proof.
  destruct f as [ef vf], x as [ex vx]. unfold clean, ap. cbn [fst snd].
  intros [[-> Hf]|[Hf [-> Hjf]]] [[-> Hx]|[Hx [-> Hjx]]].
  - left. split; [reflexivity|]. destruct vf, vx; congruence.
  - right. repeat split; [exact Hx | now destruct vf | exact Hjx].
  - right. rewrite app_nil_r. repeat split; assumption.
  - right. repeat split.
    + intro Hnil. apply app_eq_nil in Hnil. tauto.
    + rewrite has_json_error_app, Hjf, Hjx. reflexivity.
Qed.

Ltac violation := right; repeat split; discriminate.

Lemma clean_str_field name lo hi items : clean (str_field name lo hi items).
Proof.
  unfold str_field.
  destruct (dict_get name items) as [[]|]; try violation.
  destruct (match lo with Some n => _ | None => false end); [violation|].
  destruct (match hi with Some n => _ | None => false end);
    [violation | apply clean_valid].
Qed.

Lemma clean_optional_str_field name items :
  clean (optional_str_field name items).
Proof.
  unfold optional_str_field.
  destruct (dict_get name items) as [[]|];
    first [apply clean_valid | violation].
Qed.

Lemma clean_int_field name items : clean (int_field name items).
Proof.
  unfold int_field.
  destruct (dict_get name items) as [v|]; [|violation].
  destruct (lax_int v); [apply clean_valid|]. destruct v; violation.
Qed.

Lemma clean_float_field name items : clean (float_field name items).
Proof.
  unfold float_field.
  destruct (dict_get name items) as [v|]; [|violation].
  destruct (lax_float v); [apply clean_valid|]. destruct v; violation.
Qed.

Lemma clean_validate_fields items : clean (validate_fields items).
Proof.
  unfold validate_fields.
  repeat apply clean_ap;
    first [ apply clean_valid | apply clean_str_field
          | apply clean_optional_str_field
          | apply clean_int_field | apply clean_float_field ].
Qed.

Lemma validate_fields_errors items :
  fst (validate_fields items) = violations (JDict items).
Proof.
  unfold validate_fields, violations, ap. cbn [fst].
  repeat rewrite <- app_assoc. reflexivity.
Qed.

(** What [validate] returns: the model when there is no violation, and
    otherwise all the violations, of which none has a JSON parsing type. *)
Lemma validate_cases (value : json) :
  match validate value with
  | inl errors =>
      errors = violations value
      /\ errors <> [] /\ has_json_error errors = false
  | inr vehicle => violations value = []
  end.
Proof.
  destruct value; try (cbn; repeat split; discriminate).
  unfold validate. rewrite <- validate_fields_errors.
  destruct (clean_validate_fields items) as [[Hnil Hval]|[Hcons [Hval Hjson]]];
    destruct (validate_fields items) as [errors [vehicle|]];
    cbn [fst snd] in *; try congruence.
  - subst errors. reflexivity.
  - destruct errors; [congruence|]. repeat split; assumption.
Qed.

Lemma ap_value {A B} (f : validated (A -> B)) (x : validated A) (b : B) :
  snd (f <*> x) = Some b ->
  exists g a, snd f = Some g /\ snd x = Some a /\ b = g a.
Proof.
  unfold ap. cbn [snd].
  destruct (snd f) as [g|], (snd x) as [a|]; try discriminate.
  intros [= <-]. eauto.
Qed.

(** The value of a validated string field is the string of the payload,
    within the bounds of the field. *)
Lemma str_field_value name lo hi items (s : string) :
  snd (str_field name lo hi items) = Some s ->
  dict_get name items = Some (JStr s)
  /\ match lo with Some n => (n <= String.length s)%nat | None => True end
  /\ match hi with Some n => (String.length s <= n)%nat | None => True end.
Proof.
  unfold str_field.
  destruct (dict_get name items) as [[]|]; try discriminate.
  destruct lo as [lo|], hi as [hi|];
    repeat match goal with
           | |- context [(?a <? ?b)%nat] => destruct (Nat.ltb_spec a b)
           end;
    cbn [snd field_error valid]; try discriminate;
    intros [= ->]; repeat split; lia.
Qed.

(** The model that [validate] returns carries the [fuel_type] of the
    payload. *)
Lemma validate_fuel_type items vehicle :
  validate (JDict items) = inr vehicle ->
  snd (str_field "fuel_type" None (Some 50%nat) items)
  = Some (VehicleCreate.fuel_type vehicle).
Proof.
  unfold validate.
  destruct (validate_fields items) as [[|e errors] [v|]] eqn:Hv;
    try discriminate.
  intros [= <-].
  assert (Hs : snd (validate_fields items) = Some v) by now rewrite Hv.
  unfold validate_fields in Hs.
  apply ap_value in Hs. destruct Hs as [g7 [a7 [Hs [H7 ->]]]].
  apply ap_value in Hs. destruct Hs as [g6 [a6 [Hs [H6 ->]]]].
  apply ap_value in Hs. destruct Hs as [g5 [a5 [Hs [H5 ->]]]].
  apply ap_value in Hs. destruct Hs as [g4 [a4 [Hs [H4 ->]]]].
  apply ap_value in Hs. destruct Hs as [g3 [a3 [Hs [H3 ->]]]].
  apply ap_value in Hs. destruct Hs as [g2 [a2 [Hs [H2 ->]]]].
  apply ap_value in Hs. destruct Hs as [g1 [a1 [Hs [H1 ->]]]].
  cbn in Hs. injection Hs as <-. exact H7.
Qed.

Lemma violations_fuel_type items (e : error_item) :
  fst (str_field "fuel_type" None (Some 50%nat) items) = [e] ->
  exists errors, validate (JDict items) = inl errors /\ In e errors.
Proof.
  intro Hfield. pose proof (validate_cases (JDict items)) as Hcases.
  assert (Hin : In e (violations (JDict items))).
  { unfold violations. rewrite Hfield.
    repeat (apply in_or_app; right). left. reflexivity. }
  destruct (validate (JDict items)) as [errors|vehicle].
  - destruct Hcases as [-> _]. eauto.
  - rewrite Hcases in Hin. contradiction.
Qed.

(** With [fuel_type] put in front of the items of a payload, the other
    fields are read as before. *)
Lemma validate_fields_fuel_type items (s : string) :
  validate_fields (("fuel_type", JStr s) :: items)
  = valid VehicleCreate.mk
      <*> str_field "manufacturer_name" (Some 1%nat) (Some 255%nat) items
      <*> optional_str_field "description" items
      <*> int_field "horse_power" items
      <*> str_field "model_name" (Some 1%nat) (Some 255%nat) items
      <*> int_field "model_year" items
      <*> float_field "purchase_price" items
      <*> (if (50 <? String.length s)%nat
           then field_error "string_too_long" "fuel_type"
           else valid s).
Proof. reflexivity. Qed.

(** C4, as the code has it.  The input schema of create and update
    takes [fuel_type] as a required string of at most 50 characters: a
    payload that is accepted has a string of at most 50 characters there;
    a payload without [fuel_type], or with one of more than 50
    characters, is rejected with the violation in the list; and in an
    accepted payload [fuel_type] can be replaced by any string of at most
    50 characters, the empty string included. *)
Theorem fuel_type_is_a_required_string_of_at_most_50 :
  (forall items vehicle,
      validate (JDict items) = inr vehicle ->
      dict_get "fuel_type" items = Some (JStr (VehicleCreate.fuel_type vehicle))
      /\ (String.length (VehicleCreate.fuel_type vehicle) <= 50)%nat)
  /\ (forall items,
         dict_get "fuel_type" items = None ->
         exists errors,
           validate (JDict items) = inl errors
           /\ In (ErrorItem "missing" [Key "body"; Key "fuel_type"]) errors)
  /\ (forall items s,
         dict_get "fuel_type" items = Some (JStr s) ->
         (50 < String.length s)%nat ->
         exists errors,
           validate (JDict items) = inl errors
           /\ In (ErrorItem "string_too_long" [Key "body"; Key "fuel_type"])
                 errors)
  /\ (forall items vehicle s,
         validate (JDict items) = inr vehicle ->
         (String.length s <= 50)%nat ->
         validate (JDict (("fuel_type", JStr s) :: items))
         = inr (VehicleCreate.mk
                  (VehicleCreate.manufacturer_name vehicle)
                  (VehicleCreate.description vehicle)
                  (VehicleCreate.horse_power vehicle)
                  (VehicleCreate.model_name vehicle)
                  (VehicleCreate.model_year vehicle)
                  (VehicleCreate.purchase_price vehicle)
                  s)).
Proof.
  split; [|split; [|split]].
  - intros items vehicle Hvalid.
    apply validate_fuel_type in Hvalid. apply str_field_value in Hvalid.
    tauto.
  - intros items Hmissing. apply violations_fuel_type.
    unfold str_field. now rewrite Hmissing.
  - intros items s Hget Hlong. apply violations_fuel_type.
    unfold str_field. rewrite Hget.
    destruct (Nat.ltb_spec 50 (String.length s)); [reflexivity | lia].
  - intros items vehicle s Hvalid Hlen.
    unfold validate. rewrite validate_fields_fuel_type.
    destruct (Nat.ltb_spec 50 (String.length s)); [lia|].
    unfold validate, validate_fields in Hvalid.
    match type of Hvalid with
    | context [?p <*> str_field "fuel_type" None (Some 50%nat) items] =>
        remember p as prefix eqn:Hprefix
    end.
    destruct prefix as [errors [g|]];
      destruct (str_field "fuel_type" None (Some 50%nat) items) as [e7 [a7|]];
      unfold ap in Hvalid |- *; cbn [fst snd valid] in Hvalid |- *;
      destruct errors as [|e errors]; destruct e7 as [|e' e7];
      cbn in Hvalid; try discriminate.
    injection Hvalid as <-.
    assert (Hg : snd (A := list error_item) ([], Some g) = Some g)
      by reflexivity.
    rewrite Hprefix in Hg.
    apply ap_value in Hg. destruct Hg as [g6 [a6 [Hg [_ ->]]]].
    apply ap_value in Hg. destruct Hg as [g5 [a5 [Hg [_ ->]]]].
    apply ap_value in Hg. destruct Hg as [g4 [a4 [Hg [_ ->]]]].
    apply ap_value in Hg. destruct Hg as [g3 [a3 [Hg [_ ->]]]].
    apply ap_value in Hg. destruct Hg as [g2 [a2 [Hg [_ ->]]]].
    apply ap_value in Hg. destruct Hg as [g1 [a1 [Hg [_ ->]]]].
    cbn in Hg. injection Hg as <-. reflexivity.
Qed.

End InputSchemaProperties.

(** ** The scoped connection *)

Section StorageProperties.
Context `{Collaborators}.

(** The discipline of [get_db_connection], for any body.  When the block
    completes, the transaction is committed and the connection closed,
    and the table is what the body left.  When an exception comes out,
    the table is as before, and either [connect] failed (there is no
    connection) or a rollback was issued and the connection closed. *)
Lemma get_db_connection_cases {A} (body : Tx A) (w : world) :
  let out := get_db_connection body w in
  match fst out with
  | Ok a =>
      fst (body (opened w)) = Ok a
      /\ vehicles (store (snd out)) = conn_rows (snd (body (opened w)))
      /\ log (snd out)
         = log w ++ [(Connect, true); (Commit, true); (Close, true)]
  | Raise e =>
      vehicles (store (snd out)) = vehicles (store w)
      /\ (log (snd out) = log w ++ [(Connect, false)]
          \/ (exists done,
                log (snd out)
                = log w ++ [(Connect, true); (Rollback, done); (Close, true)])
          \/ (exists done,
                log (snd out)
                = log w ++ [(Connect, true); (Commit, false);
                            (Rollback, done); (Close, true)]))
  end.
Proof.
  unfold get_db_connection, opened, rollback_and_reraise, io_bind, io_raise,
    driver_call.
  destruct (next_fault (plan w)) as [[msg|] rest]; cbn [fst snd plan store log].
  - split; [reflexivity | left; reflexivity].
  - destruct (body _) as [[a|e] conn]; cbn [fst snd plan store log].
    + destruct (next_fault (conn_plan conn)) as [[msg|] rest'];
        cbn [fst snd plan store log vehicles].
      * destruct (next_fault rest') as [[msg'|] rest''];
          cbn [fst snd plan store log vehicles];
          (split; [reflexivity|]); right; right;
          eexists; repeat rewrite <- app_assoc; reflexivity.
      * repeat split. repeat rewrite <- app_assoc. reflexivity.
    + destruct (next_fault (conn_plan conn)) as [[msg|] rest'];
        cbn [fst snd plan store log vehicles];
        (split; [reflexivity|]); right; left;
        eexists; repeat rewrite <- app_assoc; reflexivity.
Qed.

(** A handler that catches every exception of its block and raises an
    [HTTPException] of its own. *)
Lemma try_except_cases {A} (block : IO A) (h : exn -> exn) (w : world) :
  try_except block (fun e => io_raise (h e)) w
  = match fst (block w) with
    | Ok a => (Ok a, snd (block w))
    | Raise e => (Raise (h e), snd (block w))
    end.
Proof. unfold try_except, io_raise. now destruct (block w) as [[a|e] w']. Qed.

(** ** What the statements do to the table *)

Lemma tx_spec_ret {A} (a : A) (Q : A -> Prop) : Q a -> tx_spec (tx_ret a) Q.
Proof. intros HQ c Hc. split; [exact Hc|]. now intros a' [= <-]. Qed.

Lemma tx_spec_raise {A} (e : exn) (Q : A -> Prop) : tx_spec (tx_raise e) Q.
Proof. intros c Hc. split; [exact Hc | discriminate]. Qed.

Lemma tx_spec_bind {A B} (m : Tx A) (k : A -> Tx B) Q R :
  tx_spec m Q -> (forall a, Q a -> tx_spec (k a) R) -> tx_spec (tx_bind m k) R.
Proof.
  intros Hm Hk c Hc. unfold tx_bind.
  destruct (Hm c Hc) as [Hrows Hval].
  destruct (m c) as [[a|e] c']; cbn [fst snd] in *.
  - apply (Hk a); auto.
  - split; [exact Hrows | discriminate].
Qed.

Lemma tx_spec_execute {A} (effect : connection -> result (list A) * connection)
    (Q : list A -> Prop) :
  (forall plan' c,
      store_ok (conn_rows c) ->
      let c' := Connection plan' (conn_seq c) (conn_rows c) in
      store_ok (conn_rows (snd (effect c')))
      /\ forall a, fst (effect c') = Ok a -> Q a) ->
  tx_spec (execute effect) Q.
Proof.
  intros Heff c Hc. unfold execute.
  destruct (next_fault (conn_plan c)) as [[msg|] plan'].
  - split; [exact Hc | discriminate].
  - apply (Heff plan' c Hc).
Qed.

Lemma tx_spec_subscript {A} (x : option A) (Q : A -> Prop) :
  (forall a, x = Some a -> Q a) -> tx_spec (subscript x) Q.
Proof.
  intros HQ. destruct x as [a|].
  - apply tx_spec_ret. auto.
  - apply tx_spec_raise.
Qed.

Lemma store_ok_update vehicle vin (rows : list row) :
  store_ok rows ->
  store_ok (map (fun r => if matches vin r then set_columns vehicle r else r)
                rows).
Proof.
  intros [Hdup Hup]. split.
  - rewrite map_map.
    erewrite map_ext; [exact Hdup|].
    intro r. now destruct (matches vin r).
  - apply Forall_map. eapply Forall_impl; [|exact Hup].
    intros r Hr. now destruct (matches vin r).
Qed.

Lemma store_ok_filter (f : row -> bool) (rows : list row) :
  store_ok rows -> store_ok (filter f rows).
Proof.
  intros [Hdup Hup]. split.
  - clear Hup. induction rows as [|r rows IH]; [exact Hdup|].
    cbn in *. inversion Hdup as [|? ? Hnotin Hdup']; subst.
    destruct (f r); [|auto]. cbn. constructor; [|auto].
    intro Hin. apply Hnotin. apply in_map_iff in Hin.
    destruct Hin as [x [Hx Hin]]. apply filter_In in Hin.
    apply in_map_iff. exists x. tauto.
  - apply Forall_forall. intros r Hin. apply filter_In in Hin.
    rewrite Forall_forall in Hup. apply Hup. tauto.
Qed.

Lemma store_ok_insert (r : row) (rows : list row) :
  store_ok rows ->
  existsb (fun r' => (row_vin r' =? row_vin r)%string) rows = false ->
  upper (row_vin r) = row_vin r ->
  store_ok (rows ++ [r]).
Proof.
  intros [Hdup Hup] Hfresh Hr. split.
  - rewrite map_app. cbn.
    apply NoDup_app; [exact Hdup | repeat constructor; intros [] |].
    intros v Hin [<-|[]].
    apply in_map_iff in Hin. destruct Hin as [x [Hx Hin]].
    assert (Hex : existsb (fun r' => (row_vin r' =? row_vin r)%string) rows
                  = true).
    { apply existsb_exists. exists x. split; [exact Hin|].
      now apply String.eqb_eq. }
    congruence.
  - apply Forall_app. split; [exact Hup | repeat constructor; exact Hr].
Qed.

Lemma tx_spec_read {A} (answer : connection -> list A) :
  tx_spec (execute (fun c => (Ok (answer c), c))) (fun _ => True).
Proof.
  apply tx_spec_execute. intros plan' c Hc. cbn. split; [exact Hc | trivial].
Qed.

Lemma tx_spec_select_nextval : tx_spec select_nextval (fun _ => True).
Proof.
  apply tx_spec_execute. intros plan' c Hc. cbn. split; [exact Hc | trivial].
Qed.

Lemma tx_spec_insert (r : row) :
  upper (row_vin r) = row_vin r -> tx_spec (insert r) (fun _ => True).
Proof.
  intro Hr. apply tx_spec_execute. intros plan' c Hc. cbn.
  destruct (existsb _ (conn_rows c)) eqn:Hfresh; cbn.
  - split; [exact Hc | trivial].
  - split; [now apply store_ok_insert | trivial].
Qed.

Lemma tx_spec_update vehicle vin :
  tx_spec (update_by_vin vehicle vin) (fun _ => True).
Proof.
  apply tx_spec_execute. intros plan' c Hc. cbn.
  split; [now apply store_ok_update | trivial].
Qed.

Lemma tx_spec_delete vin : tx_spec (delete_by_vin vin) (fun _ => True).
Proof.
  apply tx_spec_execute. intros plan' c Hc. cbn.
  split; [now apply store_ok_filter | trivial].
Qed.

Lemma upper_good_symbols (s : string) :
  forallb good_symbol (list_ascii_of_string s) = true -> upper s = s.
Proof.
  induction s as [|c s IH]; cbn; [reflexivity|].
  intro Hall. apply andb_prop in Hall. destruct Hall as [Hc Hs].
  unfold good_symbol in Hc. apply andb_prop in Hc. destruct Hc as [_ Hc].
  apply Ascii.eqb_eq in Hc. unfold upper in IH. now rewrite Hc, IH.
Qed.

(** A generated identifier is in uppercase. *)
Lemma generate_vin_upper (n : Z) (vin : string) :
  generate_vin n = Some vin -> upper vin = vin.
Proof.
  destruct (generate_vin_total n) as [vin' [Hvin [_ Hall]]].
  rewrite Hvin. intros [= <-]. now apply upper_good_symbols.
Qed.

Lemma tx_spec_call_generate_vin (n : Z) :
  tx_spec (call_generate_vin n) (fun vin => upper vin = vin).
Proof.
  unfold call_generate_vin. destruct (generate_vin n) as [vin|] eqn:Hvin.
  - apply tx_spec_ret. now apply generate_vin_upper with n.
  - apply tx_spec_raise.
Qed.

Ltac tx_step :=
  first [ apply tx_spec_ret; exact I
        | apply tx_spec_raise
        | apply tx_spec_read
        | apply tx_spec_select_nextval
        | apply tx_spec_update
        | apply tx_spec_delete
        | apply tx_spec_subscript; intros; exact I ].

(** The blocks of the six handlers keep the invariant of the table. *)
Lemma tx_spec_database_probe : tx_spec database_probe (fun _ => True).
Proof.
  unfold database_probe, select_version.
  eapply tx_spec_bind; [tx_step|]. intros rows _.
  eapply tx_spec_bind; [tx_step|]. intros v _. tx_step.
Qed.

Lemma tx_spec_create_block vehicle :
  tx_spec (create_vehicle_block vehicle) (fun _ => True).
Proof.
  unfold create_vehicle_block.
  eapply tx_spec_bind; [tx_step|]. intros rows _.
  eapply tx_spec_bind; [tx_step|]. intros vehicle_id _.
  eapply tx_spec_bind; [apply tx_spec_call_generate_vin|]. intros vin Hvin.
  eapply tx_spec_bind; [apply tx_spec_insert; exact Hvin|]. intros rows' _.
  eapply tx_spec_bind; [tx_step|]. intros v _. tx_step.
Qed.

(** The table after [get_db_connection] is as the invariant wants it. *)
Lemma get_db_connection_store_ok {A} (body : Tx A) (w : world) :
  tx_spec body (fun _ => True) ->
  store_ok (vehicles (store w)) ->
  store_ok (vehicles (store (snd (get_db_connection body w)))).
Proof.
  intros Hbody Hw. pose proof (get_db_connection_cases body w) as Hcases.
  cbv zeta in Hcases.
  destruct (fst (get_db_connection body w)) as [a|e].
  - destruct Hcases as [_ [-> _]]. now apply Hbody.
  - destruct Hcases as [-> _]. exact Hw.
Qed.

Lemma snd_try_except {A} (block : IO A) (h : exn -> exn) (w : world) :
  snd (try_except block (fun e => io_raise (h e)) w) = snd (block w).
Proof. rewrite try_except_cases. now destruct (fst (block w)). Qed.

Lemma snd_respond {A} (success : Z) (render : A -> content)
    (outcome : result A * world) :
  snd (respond success render outcome) = snd outcome.
Proof. destruct outcome as [[a|[]] w]; reflexivity. Qed.

Lemma app_store_ok (req : request) (w : world) :
  store_ok (vehicles (store w)) ->
  store_ok (vehicles (store (snd (app req w)))).
Proof.
  intro Hw.
  destruct req as [| |payload|vin|vin payload|vin]; unfold app;
    try (destruct (request_validation payload) as [errors|vehicle];
         [exact Hw|]);
    rewrite snd_respond.
  - unfold root.
    rewrite (snd_try_except _
               (fun e => HTTPException 503
                  (String.append "Database connection failed: " (str_exn e)))).
    unfold io_bind, io_ret.
    pose proof (get_db_connection_store_ok database_probe w
                  tx_spec_database_probe Hw) as Hok.
    now destruct (get_db_connection database_probe w) as [[a|e] w'].
  - unfold get_vehicle.
    rewrite (snd_try_except _ (fun _ => HTTPException 500 _)).
    apply get_db_connection_store_ok; [|exact Hw].
    eapply tx_spec_bind; [tx_step|]. intros rows _. tx_step.
  - unfold create_vehicle.
    rewrite (snd_try_except _ (fun _ => HTTPException 500 _)).
    apply get_db_connection_store_ok; [|exact Hw].
    apply tx_spec_create_block.
  - unfold get_vehicle_by_vin.
    rewrite (snd_try_except _ (fun _ => HTTPException 500 _)).
    apply get_db_connection_store_ok; [|exact Hw].
    eapply tx_spec_bind; [apply tx_spec_read|]. intros rows _.
    destruct (fetchone rows); tx_step.
  - unfold update_vehicle.
    rewrite (snd_try_except _ (fun _ => HTTPException 500 _)).
    apply get_db_connection_store_ok; [|exact Hw].
    eapply tx_spec_bind; [tx_step|]. intros rows _.
    destruct (fetchone rows); tx_step.
  - unfold delete_vehicle.
    rewrite (snd_try_except _ (fun _ => HTTPException 500 _)).
    apply get_db_connection_store_ok; [|exact Hw].
    eapply tx_spec_bind; [tx_step|]. intros rows _.
    destruct (fetchone rows); tx_step.
Qed.

Lemma handle_store (faults : fault_plan) (d : database) (req : request) :
  snd (handle faults d req) = store (snd (app req (World faults d []))).
Proof. unfold handle. now destruct (app req _). Qed.

(** Every store the service can be in keeps identifiers distinct and in
    uppercase. *)
Lemma reachable_store_ok (d : database) :
  reachable d -> store_ok (vehicles d).
Proof.
  induction 1 as [n | d faults req Hd IH].
  - split; constructor.
  - rewrite handle_store. now apply app_store_ok.
Qed.

(** ** Looking a record up by its identifier *)

Lemma upper_lower_char (c : ascii) : upper_char (lower_char c) = upper_char c.
Proof. destruct c as [[] [] [] [] [] [] [] []]; reflexivity. Qed.

Lemma lower_lower_char (c : ascii) : lower_char (lower_char c) = lower_char c.
Proof. destruct c as [[] [] [] [] [] [] [] []]; reflexivity. Qed.

Lemma lower_upper_char (c : ascii) : lower_char (upper_char c) = lower_char c.
Proof. destruct c as [[] [] [] [] [] [] [] []]; reflexivity. Qed.

Lemma map_string_compose (f g h : ascii -> ascii) (s : string) :
  (forall c, f (g c) = h c) ->
  map_string f (map_string g s) = map_string h s.
Proof.
  intro Hc. induction s as [|c s IH]; cbn; [reflexivity|].
  now rewrite Hc, IH.
Qed.

Lemma upper_lower (s : string) : upper (lower s) = upper s.
Proof. apply map_string_compose, upper_lower_char. Qed.

Lemma lower_lower (s : string) : lower (lower s) = lower s.
Proof. apply map_string_compose, lower_lower_char. Qed.

Lemma lower_upper (s : string) : lower (upper s) = lower s.
Proof. apply map_string_compose, lower_upper_char. Qed.

(** On a table that keeps the invariant, the rows that match a casing
    variant of a stored identifier are the rows with that identifier. *)
Lemma matches_stored (rows : list row) (r : row) (vin : string) :
  store_ok rows -> In r rows -> lower vin = lower (row_vin r) ->
  forall x, In x rows -> matches vin x = (row_vin x =? row_vin r)%string.
Proof.
  intros [_ Hup] Hr Hvin x Hx. unfold matches. rewrite Hvin.
  rewrite Forall_forall in Hup.
  destruct (String.eqb_spec (row_vin x) (row_vin r)) as [->|Hne].
  - apply String.eqb_refl.
  - apply String.eqb_neq. intro Hlow. apply Hne.
    rewrite <- (Hup x Hx), <- (Hup r Hr), <- upper_lower, Hlow.
    apply upper_lower.
Qed.

Lemma filter_by_vin (rows : list row) (r : row) :
  NoDup (map row_vin rows) -> In r rows ->
  filter (fun x => (row_vin x =? row_vin r)%string) rows = [r].
Proof.
  induction rows as [|x rows IH]; intros Hdup Hin; [contradiction|].
  cbn in Hdup. inversion Hdup as [|? ? Hnotin Hdup']; subst. cbn.
  destruct Hin as [->|Hin].
  - rewrite String.eqb_refl. f_equal.
    clear IH Hdup. induction rows as [|y rows IH]; [reflexivity|]. cbn.
    destruct (String.eqb_spec (row_vin y) (row_vin r)) as [Heq|Hne].
    + exfalso. apply Hnotin. left. exact Heq.
    + apply IH.
      * intro Hin. apply Hnotin. right. exact Hin.
      * now inversion Hdup'.
  - destruct (String.eqb_spec (row_vin x) (row_vin r)) as [Heq|Hne].
    + exfalso. apply Hnotin. rewrite Heq. now apply in_map.
    + now apply IH.
Qed.

Lemma select_stored (rows : list row) (r : row) (vin : string) :
  store_ok rows -> In r rows -> lower vin = lower (row_vin r) ->
  filter (matches vin) rows = [r].
Proof.
  intros Hok Hr Hvin.
  rewrite (filter_ext_in _ _ _ (matches_stored rows r vin Hok Hr Hvin)).
  apply filter_by_vin; [apply Hok | exact Hr].
Qed.

(** ** The by-identifier handlers when the environment lets every call
    through *)

Ltac unfold_service :=
  unfold handle, app, root, get_vehicle, create_vehicle, get_vehicle_by_vin,
    update_vehicle, delete_vehicle, database_probe, create_vehicle_block,
    try_except, get_db_connection, rollback_and_reraise, io_bind, io_ret,
    io_raise, driver_call, select_version, select_all, select_nextval, insert,
    select_by_vin, update_by_vin, delete_by_vin, execute, call_generate_vin,
    tx_bind, tx_ret, tx_raise.

Lemma get_vehicle_by_vin_run (d : database) (vin : string) :
  handle [] d (GET_vehicle_vin vin)
  = match fetchone (filter (matches vin) (vehicles d)) with
    | Some vehicle => (Response 200 (Vehicle (row_response vehicle)), d)
    | None => (Response 500 (Detail "Failed to retrieve vehicle"), d)
    end.
Proof.
  destruct d as [n rows]. unfold_service. cbn.
  now destruct (filter (matches vin) rows).
Qed.

Lemma update_vehicle_run (d : database) (vin : string) value vehicle :
  validate value = inr vehicle ->
  handle [] d (PUT_vehicle_vin vin (Decoded value))
  = match fetchone (map (set_columns vehicle)
                        (filter (matches vin) (vehicles d))) with
    | Some updated_vehicle =>
        (Response 200 (Vehicle (row_response updated_vehicle)),
         Database (vehicle_id_seq d)
           (map (fun r => if matches vin r then set_columns vehicle r else r)
                (vehicles d)))
    | None => (Response 500 (Detail "Failed to update vehicle"), d)
    end.
Proof.
  intro Hvalid. destruct d as [n rows]. unfold handle, app.
  cbn [request_validation]. rewrite Hvalid. unfold_service. cbn.
  now destruct (filter (matches vin) rows).
Qed.

Lemma delete_vehicle_run (d : database) (vin : string) :
  handle [] d (DELETE_vehicle_vin vin)
  = match fetchone (map row_vin (filter (matches vin) (vehicles d))) with
    | Some deleted_vehicle =>
        (Response 204 Empty,
         Database (vehicle_id_seq d)
           (filter (fun r => negb (matches vin r)) (vehicles d)))
    | None => (Response 500 (Detail "Failed to delete vehicle"), d)
    end.
Proof.
  destruct d as [n rows]. unfold_service. cbn.
  now destruct (filter (matches vin) rows).
Qed.

(** When no stored identifier matches, the [HTTPException] with status
    404 raised inside the [try] block is caught by [except Exception] of
    the same handler, which raises the one with status 500. *)
Lemma missing_vehicle_500 (d : database) (vin : string) value vehicle :
  filter (matches vin) (vehicles d) = [] ->
  validate value = inr vehicle ->
  handle [] d (GET_vehicle_vin vin)
  = (Response 500 (Detail "Failed to retrieve vehicle"), d)
  /\ handle [] d (PUT_vehicle_vin vin (Decoded value))
     = (Response 500 (Detail "Failed to update vehicle"), d)
  /\ handle [] d (DELETE_vehicle_vin vin)
     = (Response 500 (Detail "Failed to delete vehicle"), d).
Proof.
  intros Hnone Hvalid.
  rewrite get_vehicle_by_vin_run, (update_vehicle_run _ _ _ _ Hvalid),
    delete_vehicle_run, Hnone.
  repeat split.
Qed.

(** ** The claims about the handlers *)

(** C6. For every stored record and every casing variant of its
    identifier, fetch, update and delete by the variant do what they do
    by the stored identifier, whatever the environment; and when every
    call goes through they resolve to that record: fetch returns it,
    update rewrites its columns and no other row, delete removes it and
    no other row.  The all-lowercase and the all-uppercase forms of the
    identifier are such variants. *)
Theorem lookup_is_case_insensitive (d : database) (r : row) (vin : string) :
  reachable d ->
  In r (vehicles d) ->
  lower vin = lower (row_vin r) ->
  (forall faults,
      handle faults d (GET_vehicle_vin vin)
      = handle faults d (GET_vehicle_vin (row_vin r)))
  /\ (forall faults payload,
         handle faults d (PUT_vehicle_vin vin payload)
         = handle faults d (PUT_vehicle_vin (row_vin r) payload))
  /\ (forall faults,
         handle faults d (DELETE_vehicle_vin vin)
         = handle faults d (DELETE_vehicle_vin (row_vin r)))
  /\ handle [] d (GET_vehicle_vin vin)
     = (Response 200 (Vehicle (row_response r)), d)
  /\ (forall value vehicle,
         validate value = inr vehicle ->
         handle [] d (PUT_vehicle_vin vin (Decoded value))
         = (Response 200 (Vehicle (row_response (set_columns vehicle r))),
            Database (vehicle_id_seq d)
              (map (fun x => if (row_vin x =? row_vin r)%string
                             then set_columns vehicle x else x)
                   (vehicles d))))
  /\ handle [] d (DELETE_vehicle_vin vin)
     = (Response 204 Empty,
        Database (vehicle_id_seq d)
          (filter (fun x => negb (row_vin x =? row_vin r)%string)
                  (vehicles d)))
  /\ lower (lower (row_vin r)) = lower (row_vin r)
  /\ lower (upper (row_vin r)) = lower (row_vin r).
Proof.
  intros Hreach Hr Hvin.
  pose proof (reachable_store_ok d Hreach) as Hok.
  pose proof (matches_stored _ _ _ Hok Hr Hvin) as Hmatch.
  split; [|split; [|split; [|split; [|split; [|split; [|split]]]]]].
  - intro faults. unfold_service. unfold matches. now rewrite Hvin.
  - intros faults payload. unfold handle, app.
    destruct (request_validation payload) as [errors|vehicle]; [reflexivity|].
    unfold_service. unfold matches. now rewrite Hvin.
  - intro faults. unfold_service. unfold matches. now rewrite Hvin.
  - rewrite get_vehicle_by_vin_run, (select_stored _ _ _ Hok Hr Hvin).
    reflexivity.
  - intros value vehicle Hvalid.
    rewrite (update_vehicle_run _ _ _ _ Hvalid),
      (select_stored _ _ _ Hok Hr Hvin).
    cbn. do 2 f_equal. apply map_ext_in. intros x Hx. now rewrite Hmatch.
  - rewrite delete_vehicle_run, (select_stored _ _ _ Hok Hr Hvin).
    cbn. do 2 f_equal. apply filter_ext_in. intros x Hx. now rewrite Hmatch.
  - apply lower_lower.
  - apply lower_upper.
Qed.

(** What a completed block of [create_vehicle] has done: drawn the next
    sequence value, generated the identifier from it, and appended the
    row that it returns. *)
Lemma create_vehicle_block_ok vehicle (c : connection) created :
  fst (create_vehicle_block vehicle c) = Ok created ->
  exists vin,
    generate_vin (conn_seq c + 1) = Some vin
    /\ created
       = row_response
           (Row vin
                (VehicleCreate.manufacturer_name vehicle)
                (VehicleCreate.description vehicle)
                (VehicleCreate.horse_power vehicle)
                (VehicleCreate.model_name vehicle)
                (VehicleCreate.model_year vehicle)
                (adapt_float (VehicleCreate.purchase_price vehicle))
                (VehicleCreate.fuel_type vehicle))
    /\ conn_rows (snd (create_vehicle_block vehicle c))
       = conn_rows c
         ++ [Row vin
                 (VehicleCreate.manufacturer_name vehicle)
                 (VehicleCreate.description vehicle)
                 (VehicleCreate.horse_power vehicle)
                 (VehicleCreate.model_name vehicle)
                 (VehicleCreate.model_year vehicle)
                 (adapt_float (VehicleCreate.purchase_price vehicle))
                 (VehicleCreate.fuel_type vehicle)].
Proof.
  unfold_service.
  destruct (next_fault (conn_plan c)) as [[msg|] plan1]; cbn; [discriminate|].
  destruct (generate_vin (conn_seq c + 1)) as [vin|]; cbn; [|discriminate].
  destruct (next_fault plan1) as [[msg|] plan2]; cbn; [discriminate|].
  destruct (existsb _ (conn_rows c)); cbn; [discriminate|].
  intros [= <-]. exists vin. repeat split.
Qed.

(** C9. For every valid input payload, when the create operation answers
    201 with a record, fetching by the identifier of that record answers
    200 with the same record, equal in all fields; its data fields are
    those of the payload as the store holds them. *)
Theorem create_then_fetch_round_trip
    (d d' : database) (faults : fault_plan) (value : json)
    (vehicle : VehicleCreate.t) (created : VehicleResponse.t) :
  reachable d ->
  validate value = inr vehicle ->
  handle faults d (POST_vehicle (Decoded value))
  = (Response 201 (Vehicle created), d') ->
  handle [] d' (GET_vehicle_vin (VehicleResponse.vin created))
  = (Response 200 (Vehicle created), d')
  /\ created
     = VehicleResponse.mk
         (VehicleResponse.vin created)
         (VehicleCreate.manufacturer_name vehicle)
         (VehicleCreate.description vehicle)
         (VehicleCreate.horse_power vehicle)
         (VehicleCreate.model_name vehicle)
         (VehicleCreate.model_year vehicle)
         (float_of_numeric (adapt_float (VehicleCreate.purchase_price vehicle)))
         (VehicleCreate.fuel_type vehicle).
Proof.
  intros Hreach Hvalid Hcreate.
  assert (Hreach' : reachable d').
  { replace d' with (snd (handle faults d (POST_vehicle (Decoded value))))
      by now rewrite Hcreate.
    now constructor. }
  pose proof (reachable_store_ok d' Hreach') as Hok'.
  assert (Hd' : d' = store (snd (app (POST_vehicle (Decoded value))
                                     (World faults d [])))).
  { rewrite <- handle_store. now rewrite Hcreate. }
  unfold handle, app in Hcreate. cbn [request_validation] in Hcreate.
  unfold app in Hd'. cbn [request_validation] in Hd'.
  rewrite Hvalid in Hcreate, Hd'. rewrite snd_respond in Hd'.
  unfold create_vehicle in Hcreate, Hd'.
  rewrite (try_except_cases _ (fun _ => HTTPException 500 _)) in Hcreate.
  rewrite (snd_try_except _ (fun _ => HTTPException 500 _)) in Hd'.
  pose proof (get_db_connection_cases (create_vehicle_block vehicle)
                (World faults d [])) as Hcases.
  cbv zeta in Hcases.
  destruct (fst (get_db_connection (create_vehicle_block vehicle)
                   (World faults d []))) as [a|e];
    cbn in Hcreate; [|discriminate].
  injection Hcreate as -> _.
  destruct Hcases as [Hblock [Hrows _]].
  apply create_vehicle_block_ok in Hblock.
  destruct Hblock as [vin [Hvin [-> Hnew]]].
  rewrite Hnew in Hrows. rewrite <- Hd' in Hrows.
  cbn [row_response VehicleResponse.vin row_vin].
  split; [|reflexivity].
  rewrite get_vehicle_by_vin_run.
  erewrite select_stored; [reflexivity | exact Hok' | | reflexivity].
  rewrite Hrows. apply in_or_app. right. left. reflexivity.
Qed.

(** ** Outcomes of a request *)

Lemma scoped_get_db_connection {A} (body : Tx A) faults (d : database) :
  scoped (log (snd (get_db_connection body (World faults d [])))).
Proof.
  pose proof (get_db_connection_cases body (World faults d [])) as Hcases.
  cbv zeta in Hcases. unfold scoped.
  destruct (fst (get_db_connection body (World faults d []))) as [a|e].
  - destruct Hcases as [_ [_ ->]]. auto.
  - destruct Hcases as [_ [->|[[done ->]|[done ->]]]]; cbn; eauto 6.
Qed.

(** A handler of the form [try: with get_db_connection() ...: block
    except Exception: raise HTTPException(500, detail)] answers with the
    status of the route, or with 500 and [detail], the table unchanged. *)
Lemma guarded_outcome {A} (body : Tx A) (detail : string) (success : Z)
    (render : A -> content) (w : world) :
  let out :=
    respond success render
      (try_except (get_db_connection body)
                  (fun e => io_raise (HTTPException 500 detail)) w) in
  snd out = snd (get_db_connection body w)
  /\ ((exists a, fst out = Response success (render a))
      \/ (fst out = Response 500 (Detail detail)
          /\ vehicles (store (snd out)) = vehicles (store w))).
Proof.
  cbv zeta. rewrite (try_except_cases _ (fun _ => HTTPException 500 detail)).
  pose proof (get_db_connection_cases body w) as Hcases. cbv zeta in Hcases.
  destruct (fst (get_db_connection body w)) as [a|e]; cbn.
  - split; [reflexivity | left; eauto].
  - split; [reflexivity | right; split; [reflexivity | apply Hcases]].
Qed.

Lemma root_outcome (w : world) :
  let out :=
    respond 200 (fun '(message, status, database) =>
                   Health message status database) (root w) in
  snd out = snd (get_db_connection database_probe w)
  /\ match fst (get_db_connection database_probe w) with
     | Ok _ =>
         fst out = Response 200 (Health "Vehicle Management API is running"
                                        "healthy" "connected")
     | Raise e =>
         fst out = Response 503
                     (Detail (String.append "Database connection failed: "
                                            (str_exn e)))
         /\ vehicles (store (snd out)) = vehicles (store w)
     end.
Proof.
  cbv zeta. unfold root.
  rewrite (try_except_cases _
             (fun e => HTTPException 503
                (String.append "Database connection failed: " (str_exn e)))).
  unfold io_bind, io_ret.
  pose proof (get_db_connection_cases database_probe w) as Hcases.
  cbv zeta in Hcases.
  destruct (get_db_connection database_probe w) as [[a|e] w']; cbn in *.
  - split; reflexivity.
  - split; [reflexivity | split; [reflexivity | apply Hcases]].
Qed.

(** Every request either succeeds with the status of its route, or leaves
    the table as it was and, when the status is 500, carries the fixed
    message of its route; and the calls it made on connections are scoped. *)
Lemma app_outcome (req : request) (faults : fault_plan) (d : database) :
  let out := app req (World faults d []) in
  scoped (log (snd out))
  /\ (status_code (fst out) < 400
      \/ (vehicles (store (snd out)) = vehicles d
          /\ (status_code (fst out) = 500 ->
              body (fst out) = Detail (generic_message req)))).
Proof.
  cbv zeta.
  assert (Hguard : forall A (block : Tx A) detail success render,
             success < 400 ->
             let out :=
               respond success render
                 (try_except (get_db_connection block)
                    (fun e => io_raise (HTTPException 500 detail))
                    (World faults d [])) in
             scoped (log (snd out))
             /\ (status_code (fst out) < 400
                 \/ (vehicles (store (snd out)) = vehicles d
                     /\ (status_code (fst out) = 500 ->
                         body (fst out) = Detail detail)))).
  { intros A block detail success render Hsuccess. cbv zeta.
    destruct (guarded_outcome block detail success render (World faults d []))
      as [Hw [[a Ha]|[Hfail Hrows]]]; rewrite Hw.
    - split; [apply scoped_get_db_connection|]. left. now rewrite Ha.
    - split; [apply scoped_get_db_connection|]. right.
      rewrite <- Hw. split; [exact Hrows|]. now rewrite Hfail. }
  destruct req as [| |payload|vin|vin payload|vin]; unfold app;
    try (destruct (request_validation payload) as [errors|vehicle];
         [ split; [left; reflexivity|]; right; split; [reflexivity|];
           unfold validation_exception_handler;
           destruct (has_json_error errors); cbn; discriminate | ]);
    try (apply Hguard; reflexivity).
  destruct (root_outcome (World faults d [])) as [Hw Hout]. rewrite Hw.
  split; [apply scoped_get_db_connection|].
  destruct (fst (get_db_connection database_probe (World faults d []))).
  - left. now rewrite Hout.
  - right. destruct Hout as [Hout Hrows]. rewrite <- Hw.
    split; [exact Hrows|]. rewrite Hout. cbn. discriminate.
Qed.

(** C7. Every persistence operation runs inside a scoped transaction.
    For any block run under [get_db_connection]: on normal completion
    the transaction is committed and the connection closed, and the
    table is what the block made of it; when an exception comes out, the
    table is unchanged, and either [connect] itself failed, so that there
    is no connection to release, or a rollback was issued and the
    connection closed.  And every request of the service goes that way:
    its calls on connections are scoped, and a response with an error
    status leaves the table unchanged. *)
Theorem every_operation_is_a_scoped_transaction :
  (forall (A : Type) (block : Tx A) (w : world),
      let out := get_db_connection block w in
      match fst out with
      | Ok a =>
          fst (block (opened w)) = Ok a
          /\ vehicles (store (snd out)) = conn_rows (snd (block (opened w)))
          /\ log (snd out)
             = log w ++ [(Connect, true); (Commit, true); (Close, true)]
      | Raise e =>
          vehicles (store (snd out)) = vehicles (store w)
          /\ (log (snd out) = log w ++ [(Connect, false)]
              \/ (exists done,
                    log (snd out)
                    = log w ++ [(Connect, true); (Rollback, done);
                                (Close, true)])
              \/ (exists done,
                    log (snd out)
                    = log w ++ [(Connect, true); (Commit, false);
                                (Rollback, done); (Close, true)]))
      end)
  /\ (forall (req : request) (faults : fault_plan) (d : database),
         let out := app req (World faults d []) in
         scoped (log (snd out))
         /\ (status_code (fst out) < 400
             \/ vehicles (snd (handle faults d req)) = vehicles d)).
Proof.
  split.
  - intros A block w. apply get_db_connection_cases.
  - intros req faults d. cbv zeta.
    destruct (app_outcome req faults d) as [Hscoped Hout].
    split; [exact Hscoped|].
    destruct Hout as [Hok|[Hrows _]]; [left; exact Hok|].
    right. rewrite handle_store. exact Hrows.
Qed.

(** C10. Whenever the database probe of the health check raises an
    exception, the response is 503 and its detail is the fixed prefix
    followed by the message text of that exception, which is the message
    of the failed call on the database driver; the 500 responses of the
    other routes carry the fixed message of the route and nothing of the
    exception. *)
Theorem health_check_detail_embeds_exception_text :
  (forall (faults : fault_plan) (d : database) (e : exn) (w' : world),
      get_db_connection database_probe (World faults d []) = (Raise e, w') ->
      app GET_root (World faults d [])
      = (Response 503
           (Detail (String.append "Database connection failed: " (str_exn e))),
         w')
      /\ exists msg, e = DatabaseError msg /\ In (Some msg) faults
                     /\ str_exn e = msg)
  /\ (forall (req : request) (faults : fault_plan) (d : database),
         status_code (fst (handle faults d req)) = 500 ->
         body (fst (handle faults d req)) = Detail (generic_message req)).
Proof.
  split.
  - intros faults d e w' Hprobe. split.
    + destruct (root_outcome (World faults d [])) as [Hw Hout].
      rewrite Hprobe in Hw, Hout. cbn [fst snd] in Hw, Hout.
      destruct Hout as [Hout _]. unfold app.
      destruct (respond 200 _ (root (World faults d []))) as [resp w''].
      cbn [fst snd] in Hw, Hout. now subst.
    + revert Hprobe. unfold_service.
      destruct faults as [|[m0|] [|[m1|] [|[m2|] [|[m3|] rest]]]]; cbn;
        intros [= <- _]; eexists; (split; [reflexivity|]);
        (split; [cbn; auto 6 | reflexivity]).
  - intros req faults d Hstatus.
    destruct (app_outcome req faults d) as [_ Hout]. cbv zeta in Hout.
    unfold handle in *.
    destruct (app req (World faults d [])) as [resp w']. cbn [fst snd] in *.
    destruct Hout as [Hok|[_ Hdetail]]; [lia | auto].
Qed.




End StorageProperties.

(** ** The service on the payload of the tests *)

Example create_honda :
  handle [] empty_store (POST_vehicle (Decoded (JDict honda_items)))
  = (Response 201 (Vehicle honda_response), honda_store).
Proof. vm_compute. reflexivity. Qed.

(** The store after the first create is a store of the service. *)
Lemma honda_store_reachable : reachable honda_store.
Proof.
  assert (Hstep : snd (handle [] empty_store
                         (POST_vehicle (Decoded (JDict honda_items))))
                  = honda_store) by (vm_compute; reflexivity).
  rewrite <- Hstep. apply reachable_step, reachable_fresh.
Defined.

(** C1, on the code.  On a store without a matching record, GET, PUT
    and DELETE on [/vehicle/NONEXISTENT12345] are answered 500 with the
    generic message of the route, not 404: the [HTTPException] with
    status 404 is raised inside the [try] block of the handler, and
    [except Exception] of that block catches it. *)
Theorem missing_vehicle_is_answered_500 :
  handle [] empty_store (GET_vehicle_vin "NONEXISTENT12345")
  = (Response 500 (Detail "Failed to retrieve vehicle"), empty_store)
  /\ handle [] empty_store
       (PUT_vehicle_vin "NONEXISTENT12345" (Decoded (JDict honda_items)))
     = (Response 500 (Detail "Failed to update vehicle"), empty_store)
  /\ handle [] empty_store (DELETE_vehicle_vin "NONEXISTENT12345")
     = (Response 500 (Detail "Failed to delete vehicle"), empty_store)
  /\ handle [] honda_store (GET_vehicle_vin "NONEXISTENT12345")
     = (Response 500 (Detail "Failed to retrieve vehicle"), honda_store).
Proof. vm_compute. repeat split. Qed.

(** C4, as the specification words it, fails on a payload whose [fuel_type] is
    the empty string: the schema accepts it, and the service creates the
    record. *)
Lemma empty_fuel_type_is_accepted :
  @validate plain (JDict no_fuel_items)
  = inr (VehicleCreate.mk "Honda" None 192 "Accord" 2021 25000%float "")
  /\ handle [] empty_store (POST_vehicle (Decoded (JDict no_fuel_items)))
     = (Response 201
          (Vehicle (VehicleResponse.mk "82DGRKMUS8WCRRXM5" "Honda" None 192
                                       "Accord" 2021 25000%float "")),
        Database 1 [@Row plain "82DGRKMUS8WCRRXM5" "Honda" None 192 "Accord"
                         2021 25000%float ""]).
Proof. vm_compute. split; reflexivity. Qed.

(** The payload of the tests is accepted, with its [fuel_type]. *)
Lemma fuel_type_witness :
  dict_get "fuel_type" honda_items = Some (JStr "Gasoline")
  /\ (String.length "Gasoline" <= 50)%nat.
Proof.
  exact (proj1 (@fuel_type_is_a_required_string_of_at_most_50 plain)
               honda_items honda eq_refl).
Defined.

(** The stored record is found by the lowercase form of its identifier. *)
Lemma lookup_is_case_insensitive_witness :
  handle [] honda_store (GET_vehicle_vin "82dgrkmus8wcrrxm5")
  = (Response 200 (Vehicle (row_response honda_row)), honda_store).
Proof.
  assert (Hin : In honda_row (vehicles honda_store))
    by (left; reflexivity).
  assert (Hlower : lower "82dgrkmus8wcrrxm5" = lower (row_vin honda_row))
    by reflexivity.
  exact (proj1 (proj2 (proj2 (proj2
           (lookup_is_case_insensitive honda_store honda_row
              "82dgrkmus8wcrrxm5" honda_store_reachable Hin Hlower))))).
Defined.

(** The record created from the payload of the tests is fetched back. *)
Lemma create_then_fetch_witness :
  handle [] honda_store (GET_vehicle_vin "82DGRKMUS8WCRRXM5")
  = (Response 200 (Vehicle honda_response), honda_store).
Proof.
  assert (Hvalid : @validate plain (JDict honda_items) = inr honda)
    by reflexivity.
  assert (Hcreate :
            handle [] empty_store (POST_vehicle (Decoded (JDict honda_items)))
            = (Response 201 (Vehicle honda_response), honda_store))
    by (vm_compute; reflexivity).
  exact (proj1 (create_then_fetch_round_trip empty_store honda_store []
                  (JDict honda_items) honda honda_response
                  (reachable_fresh 0) Hvalid Hcreate)).
Defined.

(** A refused connection shows in the detail of the health check. *)
Lemma health_check_witness :
  app GET_root (World [Some "connection refused"] empty_store [])
  = (Response 503 (Detail "Database connection failed: connection refused"),
     World [] empty_store [(Connect, false)]).
Proof.
  assert (Hprobe :
            get_db_connection database_probe
              (World [Some "connection refused"] empty_store [])
            = (Raise (DatabaseError "connection refused"),
               World [] empty_store [(Connect, false)]))
    by reflexivity.
  exact (proj1 (proj1 (@health_check_detail_embeds_exception_text plain)
                      [Some "connection refused"] empty_store
                      (DatabaseError "connection refused")
                      (World [] empty_store [(Connect, false)]) Hprobe)).
Defined.

(* ===================================================================== *)
(** * More properties of the handlers *)
(* ===================================================================== *)

Section HandlerProperties.
Context `{Collaborators}.

Ltac unfold_service :=
  unfold handle, app, root, get_vehicle, create_vehicle, get_vehicle_by_vin,
    update_vehicle, delete_vehicle, database_probe, create_vehicle_block,
    try_except, get_db_connection, rollback_and_reraise, io_bind, io_ret,
    io_raise, driver_call, select_version, select_all, select_nextval, insert,
    select_by_vin, update_by_vin, delete_by_vin, execute, call_generate_vin,
    tx_bind, tx_ret, tx_raise.

(** The plans of faults, as far as the calls of one request go. *)
Ltac each_plan faults :=
  destruct faults as [|[?|] [|[?|] [|[?|] [|[?|] [|[?|] ?]]]]].

Lemma matches_lower (vin : string) (r : row) :
  matches vin r = true <-> lower (row_vin r) = lower vin.
Proof. unfold matches. apply String.eqb_eq. Qed.

Lemma fetchone_filter (f : row -> bool) (rows : list row) (r : row) :
  fetchone (filter f rows) = Some r -> In r rows /\ f r = true.
Proof.
  intro Hfirst. apply filter_In.
  destruct (filter f rows) as [|x l]; [discriminate|].
  injection Hfirst as ->. now left.
Qed.

(** [GET /vehicle/{vin}] under any plan of faults. *)
Lemma get_vehicle_by_vin_cases (faults : fault_plan) (d : database)
    (vin : string) :
  let out := handle faults d (GET_vehicle_vin vin) in
  snd out = d
  /\ (fst out = Response 500 (Detail "Failed to retrieve vehicle")
      \/ exists r,
           fetchone (filter (matches vin) (vehicles d)) = Some r
           /\ fst out = Response 200 (Vehicle (row_response r))).
Proof.
  destruct d as [n rows]. cbv zeta. unfold_service.
  each_plan faults; cbn;
    destruct (filter (matches vin) rows) as [|? ?]; cbn;
    (split; [reflexivity|]); first [left; reflexivity | right; eauto].
Qed.

(** [GET /vehicle] under any plan of faults. *)
Lemma get_vehicle_cases (faults : fault_plan) (d : database) :
  let out := handle faults d GET_vehicle in
  snd out = d
  /\ (fst out
      = Response 500 (Detail "Failed to retrieve vehicles from database")
      \/ (go_through 3 faults = true
          /\ fst out = Response 200 (Vehicles (map row_response (vehicles d))))).
Proof.
  destruct d as [n rows]. cbv zeta. unfold_service.
  each_plan faults; cbn; (split; [reflexivity|]);
    first [left; reflexivity | right; split; reflexivity].
Qed.

(** [GET /] under any plan of faults. *)
Lemma root_cases (faults : fault_plan) (d : database) :
  let out := handle faults d GET_root in
  snd out = d
  /\ if go_through 3 faults
     then fst out = Response 200 (Health "Vehicle Management API is running"
                                         "healthy" "connected")
     else exists msg,
            In (Some msg) faults
            /\ fst out
               = Response 503
                   (Detail (String.append "Database connection failed: " msg)).
Proof.
  destruct d as [n rows]. cbv zeta. unfold_service.
  each_plan faults; cbn; (split; [reflexivity|]);
    first [ reflexivity
          | eexists; split; [|reflexivity]; cbn; auto 8 ].
Qed.

(** [PUT /vehicle/{vin}] with a valid body, under any plan of faults. *)
Lemma update_vehicle_cases (faults : fault_plan) (d : database)
    (vin : string) (payload : request_body) (vehicle : VehicleCreate.t) :
  request_validation payload = inr vehicle ->
  let out := handle faults d (PUT_vehicle_vin vin payload) in
  (fst out = Response 500 (Detail "Failed to update vehicle") /\ snd out = d)
  \/ exists r,
       fetchone (filter (matches vin) (vehicles d)) = Some r
       /\ go_through 3 faults = true
       /\ fst out = Response 200 (Vehicle (row_response (set_columns vehicle r)))
       /\ snd out
          = Database (vehicle_id_seq d)
              (map (fun x => if matches vin x then set_columns vehicle x else x)
                   (vehicles d)).
Proof.
  intro Hvalid. destruct d as [n rows]. cbv zeta. unfold handle, app.
  rewrite Hvalid. unfold_service.
  each_plan faults; cbn;
    destruct (filter (matches vin) rows) as [|? ?]; cbn;
    first [ left; split; reflexivity
          | right; eexists; repeat split; reflexivity ].
Qed.

(** [DELETE /vehicle/{vin}] under any plan of faults. *)
Lemma delete_vehicle_cases (faults : fault_plan) (d : database)
    (vin : string) :
  let out := handle faults d (DELETE_vehicle_vin vin) in
  (fst out = Response 500 (Detail "Failed to delete vehicle") /\ snd out = d)
  \/ exists r,
       fetchone (filter (matches vin) (vehicles d)) = Some r
       /\ go_through 3 faults = true
       /\ fst out = Response 204 Empty
       /\ snd out
          = Database (vehicle_id_seq d)
              (filter (fun x => negb (matches vin x)) (vehicles d)).
Proof.
  destruct d as [n rows]. cbv zeta. unfold_service.
  each_plan faults; cbn;
    destruct (filter (matches vin) rows) as [|? ?]; cbn;
    first [ left; split; reflexivity
          | right; eexists; repeat split; reflexivity ].
Qed.

(** [POST /vehicle] with a valid body, under any plan of faults. *)
Lemma create_vehicle_cases (faults : fault_plan) (d : database)
    (payload : request_body) (vehicle : VehicleCreate.t) :
  request_validation payload = inr vehicle ->
  let out := handle faults d (POST_vehicle payload) in
  (fst out = Response 500 (Detail "Failed to create new vehicle")
   /\ vehicles (snd out) = vehicles d
   /\ (vehicle_id_seq (snd out) = vehicle_id_seq d
       \/ vehicle_id_seq (snd out) = vehicle_id_seq d + 1))
  \/ exists vin,
       generate_vin (vehicle_id_seq d + 1) = Some vin
       /\ existsb (fun r => (row_vin r =? vin)%string) (vehicles d) = false
       /\ go_through 4 faults = true
       /\ fst out = Response 201 (Vehicle (row_response (created_row vin vehicle)))
       /\ snd out
          = Database (vehicle_id_seq d + 1)
                     (vehicles d ++ [created_row vin vehicle]).
Proof.
  intro Hvalid. destruct d as [n rows]. cbv zeta. unfold handle, app.
  rewrite Hvalid. unfold_service.
  each_plan faults; cbn;
    destruct (generate_vin (n + 1)) as [vin|] eqn:Hvin; cbn;
    try destruct (existsb (fun r' => (row_vin r' =? vin)%string) rows)
      eqn:Hfresh; cbn;
    first [ solve [left; repeat split; auto]
          | solve [right; exists vin; repeat split;
                   first [assumption | reflexivity]] ].
Qed.

End HandlerProperties.

(* ===================================================================== *)
(** * More properties of the input schema *)
(* ===================================================================== *)

Section SchemaFields.
Context `{Collaborators}.

(** The model that [validate] returns holds the value of every field. *)
Lemma validate_values items vehicle :
  validate (JDict items) = inr vehicle ->
  snd (str_field "manufacturer_name" (Some 1%nat) (Some 255%nat) items)
  = Some (VehicleCreate.manufacturer_name vehicle)
  /\ snd (optional_str_field "description" items)
     = Some (VehicleCreate.description vehicle)
  /\ snd (int_field "horse_power" items)
     = Some (VehicleCreate.horse_power vehicle)
  /\ snd (str_field "model_name" (Some 1%nat) (Some 255%nat) items)
     = Some (VehicleCreate.model_name vehicle)
  /\ snd (int_field "model_year" items)
     = Some (VehicleCreate.model_year vehicle)
  /\ snd (float_field "purchase_price" items)
     = Some (VehicleCreate.purchase_price vehicle).
Proof.
  unfold validate.
  destruct (validate_fields items) as [[|e errors] [v|]] eqn:Hv;
    try discriminate.
  intros [= <-].
  assert (Hs : snd (validate_fields items) = Some v) by now rewrite Hv.
  unfold validate_fields in Hs.
  apply ap_value in Hs. destruct Hs as [g7 [a7 [Hs [H7 ->]]]].
  apply ap_value in Hs. destruct Hs as [g6 [a6 [Hs [H6 ->]]]].
  apply ap_value in Hs. destruct Hs as [g5 [a5 [Hs [H5 ->]]]].
  apply ap_value in Hs. destruct Hs as [g4 [a4 [Hs [H4 ->]]]].
  apply ap_value in Hs. destruct Hs as [g3 [a3 [Hs [H3 ->]]]].
  apply ap_value in Hs. destruct Hs as [g2 [a2 [Hs [H2 ->]]]].
  apply ap_value in Hs. destruct Hs as [g1 [a1 [Hs [H1 ->]]]].
  cbn in Hs. injection Hs as <-. cbn. repeat split; assumption.
Qed.

(** A violation of a field is in the list that [validate] returns. *)
Lemma violation_reported items (e : error_item) :
  In e (violations (JDict items)) ->
  exists errors, validate (JDict items) = inl errors /\ In e errors.
Proof.
  intro Hin. pose proof (validate_cases (JDict items)) as Hcases.
  destruct (validate (JDict items)) as [errors|vehicle].
  - destruct Hcases as [-> _]. eauto.
  - rewrite Hcases in Hin. contradiction.
Qed.

Lemma in_violations items (e : error_item) :
  In e (fst (str_field "manufacturer_name" (Some 1%nat) (Some 255%nat) items))
  \/ In e (fst (optional_str_field "description" items))
  \/ In e (fst (int_field "horse_power" items))
  \/ In e (fst (str_field "model_name" (Some 1%nat) (Some 255%nat) items))
  \/ In e (fst (int_field "model_year" items))
  \/ In e (fst (float_field "purchase_price" items))
  \/ In e (fst (str_field "fuel_type" None (Some 50%nat) items)) ->
  In e (violations (JDict items)).
Proof. unfold violations. rewrite !in_app_iff. tauto. Qed.

(** X14.  [manufacturer_name] and [model_name] are strings of 1 to 255
    characters: an accepted payload has such strings there, and a payload
    where one of them is empty, or longer than 255 characters, is
    rejected with the violation in the list. *)
Theorem names_have_1_to_255_characters :
  (forall items vehicle,
      validate (JDict items) = inr vehicle ->
      (dict_get "manufacturer_name" items
       = Some (JStr (VehicleCreate.manufacturer_name vehicle))
       /\ (1 <= String.length (VehicleCreate.manufacturer_name vehicle)
           <= 255)%nat)
      /\ (dict_get "model_name" items
          = Some (JStr (VehicleCreate.model_name vehicle))
          /\ (1 <= String.length (VehicleCreate.model_name vehicle)
              <= 255)%nat))
  /\ (forall items name s,
         In name ["manufacturer_name"; "model_name"] ->
         dict_get name items = Some (JStr s) ->
         (String.length s < 1 ->
          exists errors,
            validate (JDict items) = inl errors
            /\ In (ErrorItem "string_too_short" [Key "body"; Key name])
                  errors)%nat
         /\ (255 < String.length s ->
             exists errors,
               validate (JDict items) = inl errors
               /\ In (ErrorItem "string_too_long" [Key "body"; Key name])
                     errors)%nat).
Proof.
  split.
  - intros items vehicle Hvalid.
    destruct (validate_values items vehicle Hvalid)
      as [H1 [_ [_ [H4 _]]]].
    apply str_field_value in H1. apply str_field_value in H4.
    cbn in H1, H4. split; split; try tauto; lia.
  - intros items name s Hname Hget.
    assert (Hfield :
              forall kind,
                fst (str_field name (Some 1%nat) (Some 255%nat) items)
                = [ErrorItem kind [Key "body"; Key name]] ->
                exists errors,
                  validate (JDict items) = inl errors
                  /\ In (ErrorItem kind [Key "body"; Key name]) errors).
    { intros kind Hfst. apply violation_reported, in_violations.
      destruct Hname as [<-|[<-|[]]]; rewrite Hfst; cbn; tauto. }
    split; intro Hlen; apply Hfield; unfold str_field; rewrite Hget.
    + destruct (Nat.ltb_spec (String.length s) 1); [reflexivity | lia].
    + destruct (Nat.ltb_spec (String.length s) 1); [lia|].
      destruct (Nat.ltb_spec 255 (String.length s)); [reflexivity | lia].
Qed.

(** X15.  The six fields without a default are required: a payload that
    lacks one of them is rejected with a [missing] violation for that
    field.  [description] is optional: an accepted payload without it, or
    with [null] there, gives a model without description, and one with a
    string gives that string. *)
Theorem required_fields_and_optional_description :
  (forall items name,
      In name required_fields ->
      dict_get name items = None ->
      exists errors,
        validate (JDict items) = inl errors
        /\ In (ErrorItem "missing" [Key "body"; Key name]) errors)
  /\ (forall items vehicle,
         validate (JDict items) = inr vehicle ->
         match dict_get "description" items with
         | None | Some JNull => VehicleCreate.description vehicle = None
         | Some (JStr s) => VehicleCreate.description vehicle = Some s
         | Some _ => False
         end).
Proof.
  split.
  - intros items name Hname Hmissing.
    apply violation_reported, in_violations.
    unfold required_fields in Hname. unfold str_field, int_field, float_field.
    repeat (destruct Hname as [<-|Hname];
            [rewrite Hmissing; cbn; tauto|]).
    contradiction.
  - intros items vehicle Hvalid.
    destruct (validate_values items vehicle Hvalid) as [_ [H2 _]].
    unfold optional_str_field in H2.
    destruct (dict_get "description" items) as [[]|]; cbn in H2;
      congruence.
Qed.

End SchemaFields.

(* ===================================================================== *)
(** * More properties of the service *)
(* ===================================================================== *)

Section ServiceProperties.
Context `{Collaborators}.

Ltac unfold_service :=
  unfold handle, app, root, get_vehicle, create_vehicle, get_vehicle_by_vin,
    update_vehicle, delete_vehicle, database_probe, create_vehicle_block,
    try_except, get_db_connection, rollback_and_reraise, io_bind, io_ret,
    io_raise, driver_call, select_version, select_all, select_nextval, insert,
    select_by_vin, update_by_vin, delete_by_vin, execute, call_generate_vin,
    tx_bind, tx_ret, tx_raise.

Ltac each_plan faults :=
  destruct faults as [|[?|] [|[?|] [|[?|] [|[?|] [|[?|] ?]]]]].

Lemma invalid_body_cases (faults : fault_plan) (d : database)
    (req : request) (payload : request_body) (errors : list error_item) :
  req = POST_vehicle payload \/ (exists vin, req = PUT_vehicle_vin vin payload) ->
  request_validation payload = inl errors ->
  handle faults d req = (validation_exception_handler errors, d).
Proof.
  intros [->|[vin ->]] Hinvalid; unfold handle, app; now rewrite Hinvalid.
Qed.


(** X12.  What comes out of [get_db_connection].  When [connect] fails,
    its error comes out, the block is not run and the store is untouched.
    Otherwise a sequence value that the block drew stays drawn; the
    exception of a failed block comes out as it is ([raise e]) when the
    rollback goes through, and the error of the rollback when it does
    not; the value of a completed block comes out when the commit goes
    through, and the error of the commit, or of the rollback after it,
    when it does not. *)
Theorem scoped_connection_outcome (A : Type) (block : Tx A) (w : world) :
  let out := get_db_connection block w in
  let ran := block (opened w) in
  let after := next_fault (conn_plan (snd ran)) in
  match fst (next_fault (plan w)) with
  | Some msg =>
      fst out = Raise (DatabaseError msg) /\ store (snd out) = store w
  | None =>
      vehicle_id_seq (store (snd out)) = conn_seq (snd ran)
      /\ match fst ran, fst after with
         | Raise e, None => fst out = Raise e
         | Raise e, Some msg => fst out = Raise (DatabaseError msg)
         | Ok a, None => fst out = Ok a
         | Ok a, Some msg =>
             match fst (next_fault (snd after)) with
             | None => fst out = Raise (DatabaseError msg)
             | Some msg' => fst out = Raise (DatabaseError msg')
             end
         end
  end.
Proof.
  cbv zeta.
  unfold get_db_connection, opened, rollback_and_reraise, io_bind, io_raise,
    driver_call.
  destruct (next_fault (plan w)) as [[msg|] rest]; cbn [fst snd plan store log].
  - split; reflexivity.
  - destruct (block _) as [[a|e] conn]; cbn [fst snd plan store log];
      destruct (next_fault (conn_plan conn)) as [[msg|] rest'];
      cbn [fst snd plan store log vehicle_id_seq];
      try (destruct (next_fault rest') as [[msg'|] rest''];
           cbn [fst snd plan store log vehicle_id_seq]);
      split; reflexivity.
Qed.

(** X1.  [GET /vehicle] never changes the store.  When connect, the
    query and commit go through it answers 200 with one entry per stored
    row, in the order of the table (the empty list for an empty table);
    otherwise it answers 500 with its fixed message. *)
Theorem list_answers_every_row (faults : fault_plan) (d : database) :
  let out := handle faults d GET_vehicle in
  snd out = d
  /\ fst out
     = if go_through 3 faults
       then Response 200 (Vehicles (map row_response (vehicles d)))
       else Response 500 (Detail "Failed to retrieve vehicles from database").
Proof.
  destruct d as [n rows]. cbv zeta. unfold_service.
  each_plan faults; cbn; split; reflexivity.
Qed.

(** X11.  The health check never changes the store.  It answers 200
    [healthy] exactly when connect, the probe and commit go through, and
    otherwise 503 with the message of a failed call in the detail. *)
Theorem health_check_status (faults : fault_plan) (d : database) :
  let out := handle faults d GET_root in
  snd out = d
  /\ if go_through 3 faults
     then fst out = Response 200 (Health "Vehicle Management API is running"
                                         "healthy" "connected")
     else exists msg,
            In (Some msg) faults
            /\ fst out
               = Response 503
                   (Detail (String.append "Database connection failed: " msg)).
Proof. apply root_cases. Qed.

(** X5.  [GET /vehicle/{vin}] never changes the store, and it answers
    200 only with a stored record whose identifier equals [vin] up to
    case, in the stored casing; every other answer is 500. *)
Theorem fetch_answers_a_stored_record (faults : fault_plan) (d : database)
    (vin : string) :
  let out := handle faults d (GET_vehicle_vin vin) in
  snd out = d
  /\ (fst out = Response 500 (Detail "Failed to retrieve vehicle")
      \/ exists r,
           In r (vehicles d)
           /\ lower (row_vin r) = lower vin
           /\ fst out = Response 200 (Vehicle (row_response r))
           /\ VehicleResponse.vin (row_response r) = row_vin r).
Proof.
  destruct (get_vehicle_by_vin_cases faults d vin) as [Hstore Hout].
  cbv zeta. split; [exact Hstore|].
  destruct Hout as [Hfail|[r [Hfirst Hok]]]; [now left|].
  right. exists r. apply fetchone_filter in Hfirst.
  destruct Hfirst as [Hin Hmatch]. apply matches_lower in Hmatch.
  repeat split; assumption.
Qed.

(** X2.  [POST /vehicle] with a valid body either answers 201, having
    drawn the next sequence value, generated the identifier from it and
    appended one row, which is the record it answers with, all earlier
    rows untouched; or it answers 500 with its fixed message and leaves
    the table as it was, the sequence value drawn being lost. *)
Theorem create_appends_one_generated_row (faults : fault_plan)
    (d : database) (payload : request_body) (vehicle : VehicleCreate.t) :
  request_validation payload = inr vehicle ->
  let out := handle faults d (POST_vehicle payload) in
  (fst out = Response 500 (Detail "Failed to create new vehicle")
   /\ vehicles (snd out) = vehicles d
   /\ (vehicle_id_seq (snd out) = vehicle_id_seq d
       \/ vehicle_id_seq (snd out) = vehicle_id_seq d + 1))
  \/ exists vin,
       generate_vin (vehicle_id_seq d + 1) = Some vin
       /\ fst out
          = Response 201 (Vehicle (row_response (created_row vin vehicle)))
       /\ snd out
          = Database (vehicle_id_seq d + 1)
                     (vehicles d ++ [created_row vin vehicle]).
Proof.
  intro Hvalid.
  destruct (create_vehicle_cases faults d payload vehicle Hvalid)
    as [Hfail|[vin [Hvin [_ [_ [Hresp Hstore]]]]]]; cbv zeta.
  - left. exact Hfail.
  - right. exists vin. repeat split; assumption.
Qed.

(** X4.  [PUT /vehicle/{vin}] with a valid body answers 200 only for a
    stored record whose identifier equals [vin] up to case; the answer is
    that record with every data column replaced by the values of the
    body, under the stored identifier, whatever the casing of [vin];
    every other answer is 500 and leaves the store as it was. *)
Theorem update_answers_the_rewritten_record (faults : fault_plan)
    (d : database) (vin : string) (payload : request_body)
    (vehicle : VehicleCreate.t) :
  request_validation payload = inr vehicle ->
  let out := handle faults d (PUT_vehicle_vin vin payload) in
  (fst out = Response 500 (Detail "Failed to update vehicle") /\ snd out = d)
  \/ exists r,
       In r (vehicles d)
       /\ lower (row_vin r) = lower vin
       /\ fst out
          = Response 200
              (Vehicle (VehicleResponse.mk
                          (row_vin r)
                          (VehicleCreate.manufacturer_name vehicle)
                          (VehicleCreate.description vehicle)
                          (VehicleCreate.horse_power vehicle)
                          (VehicleCreate.model_name vehicle)
                          (VehicleCreate.model_year vehicle)
                          (float_of_numeric
                             (adapt_float
                                (VehicleCreate.purchase_price vehicle)))
                          (VehicleCreate.fuel_type vehicle))).
Proof.
  intro Hvalid.
  destruct (update_vehicle_cases faults d vin payload vehicle Hvalid)
    as [Hfail|[r [Hfirst [_ [Hresp _]]]]]; cbv zeta.
  - left. exact Hfail.
  - right. exists r. apply fetchone_filter in Hfirst.
    destruct Hfirst as [Hin Hmatch]. apply matches_lower in Hmatch.
    repeat split; assumption.
Qed.

(** What a request can make of the store, route by route. *)
Lemma handle_store_cases (req : request) (faults : fault_plan)
    (d : database) :
  let d' := snd (handle faults d req) in
  match req with
  | GET_root | GET_vehicle | GET_vehicle_vin _ => d' = d
  | POST_vehicle payload =>
      (vehicles d' = vehicles d
       /\ (vehicle_id_seq d' = vehicle_id_seq d
           \/ vehicle_id_seq d' = vehicle_id_seq d + 1))
      \/ exists vehicle vin,
           generate_vin (vehicle_id_seq d + 1) = Some vin
           /\ d' = Database (vehicle_id_seq d + 1)
                            (vehicles d ++ [created_row vin vehicle])
  | PUT_vehicle_vin vin payload =>
      d' = d
      \/ exists vehicle,
           d' = Database (vehicle_id_seq d)
                  (map (fun x => if matches vin x
                                 then set_columns vehicle x else x)
                       (vehicles d))
  | DELETE_vehicle_vin vin =>
      d' = d
      \/ d' = Database (vehicle_id_seq d)
                (filter (fun x => negb (matches vin x)) (vehicles d))
  end.
Proof.
  cbv zeta. destruct req as [| |payload|vin|vin payload|vin].
  - apply root_cases.
  - apply get_vehicle_cases.
  - destruct (request_validation payload) as [errors|vehicle] eqn:Hvalid.
    + rewrite (invalid_body_cases faults d _ payload errors); auto.
    + destruct (create_vehicle_cases faults d payload vehicle Hvalid)
        as [[_ Hfail]|[vin [Hvin [_ [_ [_ Hstore]]]]]]; [now left|].
      right. eauto.
  - apply get_vehicle_by_vin_cases.
  - destruct (request_validation payload) as [errors|vehicle] eqn:Hvalid.
    + rewrite (invalid_body_cases faults d _ payload errors); eauto.
    + destruct (update_vehicle_cases faults d vin payload vehicle Hvalid)
        as [[_ Hfail]|[r [_ [_ [_ Hstore]]]]]; [now left|].
      right. eauto.
  - destruct (delete_vehicle_cases faults d vin)
      as [[_ Hfail]|[r [_ [_ [_ Hstore]]]]]; [now left | now right].
Qed.


(** X16.  The sequence never goes back and moves by at most one per
    request; only [POST /vehicle] moves it, and the three GET routes
    leave the whole store as it was, whatever the faults. *)
Theorem sequence_moves_only_on_create (req : request)
    (faults : fault_plan) (d : database) :
  let d' := snd (handle faults d req) in
  vehicle_id_seq d <= vehicle_id_seq d' <= vehicle_id_seq d + 1
  /\ match req with
     | POST_vehicle _ => True
     | GET_root | GET_vehicle | GET_vehicle_vin _ => d' = d
     | PUT_vehicle_vin _ _ | DELETE_vehicle_vin _ =>
         vehicle_id_seq d' = vehicle_id_seq d
     end.
Proof.
  pose proof (handle_store_cases req faults d) as Hcases. cbv zeta in *.
  destruct req as [| |payload|vin|vin payload|vin].
  - rewrite Hcases. split; [lia | reflexivity].
  - rewrite Hcases. split; [lia | reflexivity].
  - split; [|exact I].
    destruct Hcases as [[_ [->| ->]]|[vehicle [vin [_ ->]]]]; cbn; lia.
  - rewrite Hcases. split; [lia | reflexivity].
  - destruct Hcases as [->|[vehicle ->]]; cbn; split; (lia || reflexivity).
  - destruct Hcases as [->| ->]; cbn; split; (lia || reflexivity).
Qed.

(** X6.  [DELETE /vehicle/{vin}] answers 204 only when a stored
    identifier equals [vin] up to case, and then it has removed every
    such row and no other; every other answer is 500 and leaves the
    store as it was. *)
Theorem delete_removes_the_matching_rows (faults : fault_plan)
    (d : database) (vin : string) :
  let out := handle faults d (DELETE_vehicle_vin vin) in
  (fst out = Response 500 (Detail "Failed to delete vehicle") /\ snd out = d)
  \/ (fst out = Response 204 Empty
      /\ (exists r, In r (vehicles d) /\ lower (row_vin r) = lower vin)
      /\ vehicle_id_seq (snd out) = vehicle_id_seq d
      /\ forall r,
           In r (vehicles (snd out))
           <-> In r (vehicles d) /\ lower (row_vin r) <> lower vin).
Proof.
  destruct (delete_vehicle_cases faults d vin)
    as [Hfail|[r [Hfirst [_ [Hresp Hstore]]]]]; cbv zeta.
  - left. exact Hfail.
  - right. split; [exact Hresp|]. apply fetchone_filter in Hfirst.
    destruct Hfirst as [Hin Hmatch]. apply matches_lower in Hmatch.
    split; [eauto|]. rewrite Hstore. cbn [vehicle_id_seq vehicles].
    split; [reflexivity|]. intro x. rewrite filter_In.
    rewrite negb_true_iff, <- not_true_iff_false, matches_lower. tauto.
Qed.

(** X7.  After a 204 of [DELETE /vehicle/{vin}], a fetch by that
    identifier, in any casing and under any faults, answers 500: there is
    no record left for it to answer with. *)
Theorem deleted_record_is_not_fetched (faults faults' : fault_plan)
    (d : database) (vin vin' : string) :
  status_code (fst (handle faults d (DELETE_vehicle_vin vin))) = 204 ->
  lower vin' = lower vin ->
  fst (handle faults' (snd (handle faults d (DELETE_vehicle_vin vin)))
         (GET_vehicle_vin vin'))
  = Response 500 (Detail "Failed to retrieve vehicle").
Proof.
  intros Hstatus Hvin.
  destruct (delete_vehicle_cases faults d vin)
    as [[Hfail _]|[r [_ [_ [_ Hstore]]]]].
  - rewrite Hfail in Hstatus. discriminate.
  - rewrite Hstore.
    destruct (get_vehicle_by_vin_cases faults'
                (Database (vehicle_id_seq d)
                   (filter (fun x => negb (matches vin x)) (vehicles d)))
                vin') as [_ [Hnone|[x [Hfirst _]]]]; [exact Hnone|].
    apply fetchone_filter in Hfirst. destruct Hfirst as [Hin Hmatch].
    cbn [vehicles] in Hin. apply filter_In in Hin. destruct Hin as [_ Hnot].
    unfold matches in Hmatch, Hnot. rewrite Hvin in Hmatch.
    rewrite Hmatch in Hnot. discriminate.
Qed.

(** X17.  Every response has one of the statuses of its route: 200 or
    503 for the health check, 200 or 500 for the list and the fetch, 201,
    400, 422 or 500 for create, 200, 400, 422 or 500 for update, 204 or
    500 for delete.  No route of the code answers 404. *)
Theorem status_is_one_of_the_route (req : request) (faults : fault_plan)
    (d : database) :
  In (status_code (fst (handle faults d req))) (route_statuses req)
  /\ status_code (fst (handle faults d req)) <> 404.
Proof.
  assert (Hin : In (status_code (fst (handle faults d req)))
                   (route_statuses req)).
  { assert (Hinvalid : forall errors,
               status_code (validation_exception_handler errors) = 400
               \/ status_code (validation_exception_handler errors) = 422).
    { intro errors. unfold validation_exception_handler.
      destruct (has_json_error errors); cbn; auto. }
    destruct req as [| |payload|vin|vin payload|vin]; cbn [route_statuses].
    - destruct (root_cases faults d) as [_ Hout]. cbv zeta in Hout.
      destruct (go_through 3 faults).
      + rewrite Hout. cbn. auto.
      + destruct Hout as [msg [_ ->]]. cbn. auto.
    - destruct (get_vehicle_cases faults d) as [_ [-> |[_ ->]]]; cbn; auto.
    - destruct (request_validation payload) as [errors|vehicle] eqn:Hvalid.
      + rewrite (invalid_body_cases faults d _ payload errors); auto.
        cbn [fst]. destruct (Hinvalid errors) as [-> | ->]; cbn; auto.
      + destruct (create_vehicle_cases faults d payload vehicle Hvalid)
          as [[-> _]|[vin [_ [_ [_ [-> _]]]]]]; cbn; auto.
    - destruct (get_vehicle_by_vin_cases faults d vin)
        as [_ [-> |[r [_ ->]]]]; cbn; auto.
    - destruct (request_validation payload) as [errors|vehicle] eqn:Hvalid.
      + rewrite (invalid_body_cases faults d _ payload errors); eauto.
        cbn [fst]. destruct (Hinvalid errors) as [-> | ->]; cbn; auto.
      + destruct (update_vehicle_cases faults d vin payload vehicle Hvalid)
          as [[-> _]|[r [_ [_ [-> _]]]]]; cbn; auto.
    - destruct (delete_vehicle_cases faults d vin)
        as [[-> _]|[r [_ [_ [-> _]]]]]; cbn; auto. }
  split; [exact Hin|]. intro H404. rewrite H404 in Hin.
  destruct req; cbn in Hin; intuition discriminate.
Qed.

Lemma filter_matches_updated vehicle vin (rows : list row) :
  filter (matches vin)
         (map (fun x => if matches vin x then set_columns vehicle x else x)
              rows)
  = map (set_columns vehicle) (filter (matches vin) rows).
Proof.
  assert (Hsame : forall x,
             matches vin (set_columns vehicle x) = matches vin x)
    by reflexivity.
  induction rows as [|x rows IH]; [reflexivity|]. cbn [map filter].
  destruct (matches vin x) eqn:Hx.
  - rewrite Hsame, Hx. cbn [map]. now rewrite IH.
  - rewrite Hx. exact IH.
Qed.

(** X8.  An update is idempotent: when every call on the database goes
    through, sending the same [PUT /vehicle/{vin}] a second time gives
    the answer of the first and leaves the store as the first left it. *)
Theorem update_twice_is_update_once (d : database) (vin : string)
    (payload : request_body) :
  let first := handle [] d (PUT_vehicle_vin vin payload) in
  handle [] (snd first) (PUT_vehicle_vin vin payload) = first.
Proof.
  cbv zeta.
  destruct (request_validation payload) as [errors|vehicle] eqn:Hvalid.
  - now rewrite !(invalid_body_cases [] _ _ payload errors) by eauto.
  - destruct payload as [position|value]; [discriminate|].
    cbn [request_validation] in Hvalid.
    rewrite (update_vehicle_run d vin value vehicle Hvalid).
    destruct (filter (matches vin) (vehicles d)) as [|r rows] eqn:Hmatch;
      cbn [map fetchone snd].
    + now rewrite (update_vehicle_run d vin value vehicle Hvalid), Hmatch.
    + rewrite (update_vehicle_run _ vin value vehicle Hvalid).
      cbn [vehicles vehicle_id_seq].
      rewrite filter_matches_updated, Hmatch. cbn [map fetchone].
      do 2 f_equal. rewrite map_map. apply map_ext. intro x.
      destruct (matches vin x) eqn:Hx; [|now rewrite Hx].
      change (matches vin (set_columns vehicle x)) with (matches vin x).
      now rewrite Hx.
Qed.

(** What an answer 201 of [POST /vehicle] tells. *)
Lemma created_cases (faults : fault_plan) (d d1 : database)
    (payload : request_body) (created : VehicleResponse.t) :
  handle faults d (POST_vehicle payload)
  = (Response 201 (Vehicle created), d1) ->
  exists vehicle vin,
    request_validation payload = inr vehicle
    /\ generate_vin (vehicle_id_seq d + 1) = Some vin
    /\ existsb (fun r => (row_vin r =? vin)%string) (vehicles d) = false
    /\ created = row_response (created_row vin vehicle)
    /\ d1 = Database (vehicle_id_seq d + 1)
                     (vehicles d ++ [created_row vin vehicle]).
Proof.
  intro Hcreate.
  destruct (request_validation payload) as [errors|vehicle] eqn:Hvalid.
  - rewrite (invalid_body_cases faults d _ payload errors) in Hcreate; auto.
    unfold validation_exception_handler in Hcreate.
    destruct (has_json_error errors); discriminate.
  - destruct (create_vehicle_cases faults d payload vehicle Hvalid)
      as [[Hfail _]|[vin [Hvin [Hfresh [_ [Hresp Hstore]]]]]];
      rewrite Hcreate in *; cbn [fst snd] in *.
    + discriminate.
    + injection Hresp as ->. exists vehicle, vin. repeat split; assumption.
Qed.

Lemma filter_others (f : row -> bool) (rows : list row) :
  existsb f rows = false -> filter (fun x => negb (f x)) rows = rows.
Proof.
  induction rows as [|x rows IH]; [reflexivity|]. cbn.
  intro Hnone. apply orb_false_elim in Hnone. destruct Hnone as [Hx Hrows].
  rewrite Hx. cbn. now rewrite IH.
Qed.

(** X9.  Deleting a record just created gives the table back: in a store
    of the service, after a 201 of [POST /vehicle], a delete by the
    identifier of the answer, when every call goes through, answers 204
    and leaves the rows that were there before the create, in their
    order; only the sequence has moved. *)
Theorem create_then_delete_restores_the_table (faults : fault_plan)
    (d d1 : database) (payload : request_body)
    (created : VehicleResponse.t) :
  reachable d ->
  handle faults d (POST_vehicle payload)
  = (Response 201 (Vehicle created), d1) ->
  handle [] d1 (DELETE_vehicle_vin (VehicleResponse.vin created))
  = (Response 204 Empty, Database (vehicle_id_seq d + 1) (vehicles d)).
Proof.
  intros Hreach Hcreate.
  assert (Hok : store_ok (vehicles d1)).
  { apply reachable_store_ok.
    replace d1 with (snd (handle faults d (POST_vehicle payload)))
      by now rewrite Hcreate.
    now constructor. }
  destruct (created_cases faults d d1 payload created Hcreate)
    as [vehicle [vin [_ [_ [Hfresh [-> ->]]]]]].
  cbn [row_response VehicleResponse.vin created_row row_vin] in *.
  set (new := created_row vin vehicle) in *.
  assert (Hin : In new (vehicles d ++ [new]))
    by (apply in_or_app; right; now left).
  rewrite delete_vehicle_run. cbn [vehicles vehicle_id_seq] in *.
  rewrite (select_stored _ new vin Hok Hin eq_refl). cbn [map fetchone].
  do 2 f_equal.
  rewrite (filter_ext_in _ (fun x => negb (row_vin x =? vin)%string)).
  - rewrite filter_app, (filter_others _ _ Hfresh). cbn.
    rewrite String.eqb_refl. cbn. apply app_nil_r.
  - intros x Hx. f_equal. apply (matches_stored _ new vin Hok Hin eq_refl x Hx).
Qed.



(** X18.  In every store of the service, each stored identifier is the
    identifier that the generator gives for a sequence value already
    drawn, and has 17 characters. *)
Theorem stored_identifiers_are_generated (d : database) :
  reachable d ->
  Forall (fun r =>
            (exists k, k <= vehicle_id_seq d
                       /\ generate_vin k = Some (row_vin r))
            /\ String.length (row_vin r) = 17%nat)
         (vehicles d).
Proof.
  intro Hreach.
  assert (Hgen : Forall (fun r => exists k,
                           k <= vehicle_id_seq d
                           /\ generate_vin k = Some (row_vin r))
                        (vehicles d)).
  { induction Hreach as [n | d faults req Hd IH]; [constructor|].
    pose proof (handle_store_cases req faults d) as Hcases.
    cbv zeta in Hcases.
    assert (Hweak : forall n rows,
               vehicle_id_seq d <= n ->
               incl rows (vehicles d) ->
               Forall (fun r => exists k,
                         k <= n /\ generate_vin k = Some (row_vin r)) rows).
    { intros n rows Hn Hincl. apply Forall_forall. intros r Hr.
      rewrite Forall_forall in IH.
      destruct (IH r (Hincl r Hr)) as [k [Hk Hvin]]. exists k. split; [lia|].
      exact Hvin. }
    destruct req as [| |payload|vin|vin payload|vin];
      try (rewrite Hcases; exact IH).
    - destruct Hcases as [[Hrows Hseq]|[vehicle [vin [Hvin ->]]]].
      + rewrite Hrows. apply Hweak; [lia | apply incl_refl].
      + cbn [vehicles vehicle_id_seq]. apply Forall_app. split.
        * apply Hweak; [lia | apply incl_refl].
        * repeat constructor. exists (vehicle_id_seq d + 1).
          split; [lia | exact Hvin].
    - destruct Hcases as [->|[vehicle ->]]; [exact IH|].
      cbn [vehicles vehicle_id_seq]. apply Forall_map.
      eapply Forall_impl; [|exact IH]. intros r Hr.
      now destruct (matches vin r).
    - destruct Hcases as [->| ->]; [exact IH|].
      cbn [vehicles vehicle_id_seq]. apply Hweak; [lia|].
      intros r Hr. apply filter_In in Hr. tauto. }
  eapply Forall_impl; [|exact Hgen]. intros r [k [Hk Hvin]].
  split; [eauto|].
  destruct (generate_vin_total k) as [vin [Hvin' [Hlen _]]]. congruence.
Qed.

(** X19.  Two generated identifiers that are equal up to case are
    equal: the case-insensitive comparison of the lookups tells
    generated identifiers apart as well as the exact one. *)
Theorem generated_identifiers_equal_up_to_case (n m : Z) (a b : string) :
  generate_vin n = Some a ->
  generate_vin m = Some b ->
  lower a = lower b ->
  a = b.
Proof.
  intros Ha Hb Hlow.
  rewrite <- (generate_vin_upper n a Ha), <- (generate_vin_upper m b Hb).
  now rewrite <- (upper_lower a), <- (upper_lower b), Hlow.
Qed.

(** X20.  In every store of the service, each record of a 200 answer of
    [GET /vehicle] is fetched back by its identifier, when every call
    goes through: the fetch answers 200 with that very record. *)
Theorem listed_records_are_fetched (faults : fault_plan) (d : database)
    (listed : list VehicleResponse.t) (v : VehicleResponse.t) :
  reachable d ->
  fst (handle faults d GET_vehicle) = Response 200 (Vehicles listed) ->
  In v listed ->
  handle [] d (GET_vehicle_vin (VehicleResponse.vin v))
  = (Response 200 (Vehicle v), d).
Proof.
  intros Hreach Hlist Hv.
  destruct (get_vehicle_cases faults d) as [_ [Hfail|[_ Hok]]];
    rewrite Hlist in *; [discriminate|].
  injection Hok as ->. apply in_map_iff in Hv. destruct Hv as [r [<- Hr]].
  rewrite get_vehicle_by_vin_run. cbn [row_response VehicleResponse.vin].
  now rewrite (select_stored _ r _ (reachable_store_ok d Hreach) Hr eq_refl).
Qed.

End ServiceProperties.

(** ** The further properties on the payload of the tests *)

#[local] Existing Instance plain.

(** The create of the tests, on a fresh store. *)
Lemma create_appends_witness :
  let out := handle [] empty_store (POST_vehicle honda_body) in
  (fst out = Response 500 (Detail "Failed to create new vehicle")
   /\ vehicles (snd out) = vehicles empty_store
   /\ (vehicle_id_seq (snd out) = vehicle_id_seq empty_store
       \/ vehicle_id_seq (snd out) = vehicle_id_seq empty_store + 1))
  \/ exists vin,
       generate_vin (vehicle_id_seq empty_store + 1) = Some vin
       /\ fst out
          = Response 201 (Vehicle (row_response (created_row vin honda)))
       /\ snd out
          = Database (vehicle_id_seq empty_store + 1)
                     (vehicles empty_store ++ [created_row vin honda]).
Proof.
  exact (create_appends_one_generated_row [] empty_store honda_body honda
           eq_refl).
Defined.

(** An update of the stored record by the lowercase identifier. *)
Lemma update_answers_witness :
  let out :=
    handle [] honda_store (PUT_vehicle_vin "82dgrkmus8wcrrxm5" honda_body) in
  (fst out = Response 500 (Detail "Failed to update vehicle")
   /\ snd out = honda_store)
  \/ exists r,
       In r (vehicles honda_store)
       /\ lower (row_vin r) = lower "82dgrkmus8wcrrxm5"
       /\ fst out
          = Response 200
              (Vehicle (VehicleResponse.mk
                          (row_vin r)
                          (VehicleCreate.manufacturer_name honda)
                          (VehicleCreate.description honda)
                          (VehicleCreate.horse_power honda)
                          (VehicleCreate.model_name honda)
                          (VehicleCreate.model_year honda)
                          (float_of_numeric
                             (adapt_float
                                (VehicleCreate.purchase_price honda)))
                          (VehicleCreate.fuel_type honda))).
Proof.
  exact (update_answers_the_rewritten_record [] honda_store
           "82dgrkmus8wcrrxm5" honda_body honda eq_refl).
Defined.

(** The stored record, deleted by its lowercase identifier, is not
    fetched by the uppercase one. *)
Lemma deleted_record_witness :
  fst (handle [] (snd (handle [] honda_store
                         (DELETE_vehicle_vin "82dgrkmus8wcrrxm5")))
         (GET_vehicle_vin "82DGRKMUS8WCRRXM5"))
  = Response 500 (Detail "Failed to retrieve vehicle").
Proof.
  assert (Hstatus :
            status_code (fst (handle [] honda_store
                                (DELETE_vehicle_vin "82dgrkmus8wcrrxm5")))
            = 204) by reflexivity.
  assert (Hlower : lower "82DGRKMUS8WCRRXM5" = lower "82dgrkmus8wcrrxm5")
    by reflexivity.
  exact (deleted_record_is_not_fetched [] [] honda_store
           "82dgrkmus8wcrrxm5" "82DGRKMUS8WCRRXM5" Hstatus Hlower).
Defined.

(** Creating the record of the tests and deleting it leaves no row. *)
Lemma create_then_delete_witness :
  handle [] honda_store (DELETE_vehicle_vin "82DGRKMUS8WCRRXM5")
  = (Response 204 Empty, Database (0 + 1) []).
Proof.
  exact (create_then_delete_restores_the_table [] empty_store honda_store
           honda_body honda_response (reachable_fresh 0) create_honda).
Defined.


(** The identifier of the first record is generated and has 17
    characters. *)
Lemma stored_identifiers_witness :
  Forall (fun r : @row plain =>
            (exists k, k <= 1 /\ generate_vin k = Some (row_vin r))
            /\ String.length (row_vin r) = 17%nat)
         [honda_row].
Proof.
  exact (stored_identifiers_are_generated honda_store honda_store_reachable).
Defined.

(** The identifier of sequence value 1 against itself. *)
Lemma generated_identifiers_witness :
  "82DGRKMUS8WCRRXM5" = "82DGRKMUS8WCRRXM5".
Proof.
  assert (Hvin : generate_vin 1 = Some "82DGRKMUS8WCRRXM5")
    by (vm_compute; reflexivity).
  exact (generated_identifiers_equal_up_to_case 1 1 "82DGRKMUS8WCRRXM5"
           "82DGRKMUS8WCRRXM5" Hvin Hvin eq_refl).
Defined.

(** The one record listed is fetched back. *)
Lemma listed_records_witness :
  handle [] honda_store (GET_vehicle_vin "82DGRKMUS8WCRRXM5")
  = (Response 200 (Vehicle honda_response), honda_store).
Proof.
  assert (Hlist : fst (handle [] honda_store GET_vehicle)
                  = Response 200 (Vehicles [honda_response]))
    by reflexivity.
  exact (listed_records_are_fetched [] honda_store [honda_response]
           honda_response honda_store_reachable Hlist
           (or_introl eq_refl)).
Defined.

(** The names of the payload of the tests. *)
Lemma names_witness :
  (dict_get "manufacturer_name" honda_items = Some (JStr "Honda")
   /\ (1 <= String.length "Honda" <= 255)%nat)
  /\ (dict_get "model_name" honda_items = Some (JStr "Accord")
      /\ (1 <= String.length "Accord" <= 255)%nat).
Proof.
  exact (proj1 (@names_have_1_to_255_characters plain)
               honda_items honda eq_refl).
Defined.

(** The payload of the tests without [manufacturer_name] is rejected. *)
Lemma required_fields_witness :
  exists errors,
    @validate plain (JDict no_manufacturer_items) = inl errors
    /\ In (ErrorItem "missing" [Key "body"; Key "manufacturer_name"]) errors.
Proof.
  exact (proj1 (@required_fields_and_optional_description plain)
               no_manufacturer_items "manufacturer_name"
               (or_introl eq_refl) eq_refl).
Defined.
